(** * zentick: the robust countdown timer ([useRobustTimer.ts])

    A shallow embedding of the composable [useRobustTimer] and of the part
    of the browser it talks to (the one-shot timer table behind
    [setTimeout]/[clearTimeout], the [visibilitychange] listener, the
    wall clock behind [Date.now()] and the completion callback), followed
    by the properties of the countdown engine.

    Conventions.
    - Numbers are integers ([Z]): every quantity of the engine is a count
      of milliseconds.
    - The closure variables of [useRobustTimer] and the browser state the
      closure can reach are the fields of one record, [world], threaded
      through every function.
    - Each call of [Date.now()] is an argument of the function that makes
      it, so nothing is assumed about how the clock moves between two
      reads unless a statement says so. *)

From Stdlib Require Import Ascii String Decimal DecimalString.
From Stdlib Require Import ZArith List Bool Lia.
Import ListNotations.
Open Scope Z_scope.

(** ** Options and state *)

(** [UseRobustTimerOptions].  The callback itself lives outside the
    engine; [onComplete] records whether one was supplied and the world
    counts its invocations. *)
Record options := mkOptions {
  durationMs : Z;
  onComplete : bool;
  autoStart : bool
}.

(** A one-shot timer registered with [window.setTimeout]: its handle and
    the delay that was asked for. *)
Record timer := mkTimer {
  tm_id : nat;
  tm_delay : Z
}.

Record world := mkWorld {
  (* reactive state *)
  remainingMs : Z;
  isRunning : bool;
  isPaused : bool;
  (* internal state *)
  deadline : option Z;
  timeoutId : option nat;
  pausedRemainingMs : option Z;
  (* browser *)
  timers : list timer;      (* registered and neither fired nor cleared *)
  next_id : nat;            (* next handle [setTimeout] hands out *)
  listening : bool;         (* the visibilitychange listener is attached *)
  completions : nat         (* invocations of the completion callback *)
}.

(** What a JavaScript call can do: return a value or throw. *)
Inductive js_result (A : Type) : Type :=
| Returned (a : A)
| Threw.
Arguments Returned {A} a.
Arguments Threw {A}.

(** ** JavaScript operators used by the source *)

(** [!x] for [x : number | null]: [null] and [0] are falsy. *)
Definition falsy (x : option Z) : bool :=
  match x with
  | None => true
  | Some v => v =? 0
  end.

(** [a || b] on numbers. *)
Definition js_or (a b : Z) : Z := if a =? 0 then b else a.

(** [a % b]: the remainder has the sign of the dividend. *)
Definition js_rem (a b : Z) : Z := Z.rem a b.

(** ** Browser primitives *)

Definition has_id (id : nat) (t : timer) : bool := Nat.eqb (tm_id t) id.

Definition pending (id : nat) (w : world) : bool := existsb (has_id id) (timers w).

Definition drop_timer (id : nat) (l : list timer) : list timer :=
  filter (fun t => negb (has_id id t)) l.

(** [window.setTimeout(cb, delay)]: registers a timer under a fresh handle. *)
Definition setTimeout (delay : Z) (w : world) : nat * world :=
  (next_id w,
   {| remainingMs := remainingMs w; isRunning := isRunning w; isPaused := isPaused w;
      deadline := deadline w; timeoutId := timeoutId w;
      pausedRemainingMs := pausedRemainingMs w;
      timers := timers w ++ [mkTimer (next_id w) delay];
      next_id := S (next_id w);
      listening := listening w; completions := completions w |}).

(** [clearTimeout(id)]: the timer, if still registered, will not fire. *)
Definition clearTimeout (id : nat) (w : world) : world :=
  {| remainingMs := remainingMs w; isRunning := isRunning w; isPaused := isPaused w;
     deadline := deadline w; timeoutId := timeoutId w;
     pausedRemainingMs := pausedRemainingMs w;
     timers := drop_timer id (timers w);
     next_id := next_id w;
     listening := listening w; completions := completions w |}.

(** ** The engine *)

Definition set_timeoutId (v : option nat) (w : world) : world :=
  {| remainingMs := remainingMs w; isRunning := isRunning w; isPaused := isPaused w;
     deadline := deadline w; timeoutId := v;
     pausedRemainingMs := pausedRemainingMs w;
     timers := timers w; next_id := next_id w;
     listening := listening w; completions := completions w |}.

Definition set_remainingMs (v : Z) (w : world) : world :=
  {| remainingMs := v; isRunning := isRunning w; isPaused := isPaused w;
     deadline := deadline w; timeoutId := timeoutId w;
     pausedRemainingMs := pausedRemainingMs w;
     timers := timers w; next_id := next_id w;
     listening := listening w; completions := completions w |}.

(** [clearTimer]: clears the timer whose handle is in [timeoutId]. *)
Definition clearTimer (w : world) : world :=
  match timeoutId w with
  | Some id => set_timeoutId None (clearTimeout id w)
  | None => w
  end.

(** [scheduleNext]; [now] is its [Date.now()]. *)
Definition scheduleNext (now : Z) (w : world) : world :=
  if falsy (deadline w) then w
  else
    match deadline w with
    | None => w
    | Some d =>
        let left := Z.max 0 (d - now) in
        let nextTickDelay := js_or (js_rem left 1000) 1000 in
        let (id, w1) := setTimeout nextTickDelay w in
        set_timeoutId (Some id) w1
    end.

(** [onComplete?.()] *)
Definition call_onComplete (o : options) (w : world) : world :=
  if onComplete o then
    {| remainingMs := remainingMs w; isRunning := isRunning w; isPaused := isPaused w;
       deadline := deadline w; timeoutId := timeoutId w;
       pausedRemainingMs := pausedRemainingMs w;
       timers := timers w; next_id := next_id w;
       listening := listening w; completions := S (completions w) |}
  else w.

(** [complete] *)
Definition complete (o : options) (w : world) : world :=
  let w1 := clearTimer w in
  call_onComplete o
    {| remainingMs := 0; isRunning := false; isPaused := false;
       deadline := deadline w1; timeoutId := timeoutId w1;
       pausedRemainingMs := pausedRemainingMs w1;
       timers := timers w1; next_id := next_id w1;
       listening := listening w1; completions := completions w1 |}.

(** [tick]; [now] is its own [Date.now()], [now_s] the one [scheduleNext]
    makes when [tick] reaches it. *)
Definition tick (o : options) (now now_s : Z) (w : world) : world :=
  if falsy (deadline w) then w
  else
    match deadline w with
    | None => w
    | Some d =>
        let left := Z.max 0 (d - now) in
        let w1 := set_remainingMs left w in
        if left <=? 0 then complete o w1
        else scheduleNext now_s w1
    end.

(** [handleVisibilityChange]; [hidden] is [document.hidden]. *)
Definition handleVisibilityChange (o : options) (hidden : bool) (now now_s : Z)
    (w : world) : world :=
  if hidden || negb (isRunning w) then w
  else tick o now now_s w.

(** [start]; [now] is its own [Date.now()], [now_t] and [now_s] those of
    the [tick] it ends with. *)
Definition start (o : options) (now now_t now_s : Z) (w : world) : world :=
  if isRunning w then w
  else
    let startDuration :=
      match pausedRemainingMs w with
      | Some p => p
      | None => durationMs o
      end in
    tick o now_t now_s
      {| remainingMs := remainingMs w; isRunning := true; isPaused := false;
         deadline := Some (now + startDuration); timeoutId := timeoutId w;
         pausedRemainingMs := None;
         timers := timers w; next_id := next_id w;
         listening := listening w; completions := completions w |}.

(** [pause] *)
Definition pause (w : world) : world :=
  if negb (isRunning w) then w
  else
    let w1 := clearTimer w in
    {| remainingMs := remainingMs w1; isRunning := false; isPaused := true;
       deadline := None; timeoutId := timeoutId w1;
       pausedRemainingMs := Some (remainingMs w1);
       timers := timers w1; next_id := next_id w1;
       listening := listening w1; completions := completions w1 |}.

(** [stop] *)
Definition stop (o : options) (w : world) : world :=
  let w1 := clearTimer w in
  {| remainingMs := durationMs o; isRunning := false; isPaused := false;
     deadline := None; timeoutId := timeoutId w1;
     pausedRemainingMs := None;
     timers := timers w1; next_id := next_id w1;
     listening := listening w1; completions := completions w1 |}.

(** [reset] *)
Definition reset (o : options) (w : world) : world := stop o w.

(** The [onUnmounted] hook. *)
Definition unmounted (w : world) : world :=
  let w1 := clearTimer w in
  {| remainingMs := remainingMs w1; isRunning := isRunning w1; isPaused := isPaused w1;
     deadline := deadline w1; timeoutId := timeoutId w1;
     pausedRemainingMs := pausedRemainingMs w1;
     timers := timers w1; next_id := next_id w1;
     listening := false; completions := completions w1 |}.

(** The state [useRobustTimer] sets up before the auto-start test, in a
    browser with no timer of this engine registered. *)
Definition fresh (o : options) : world :=
  {| remainingMs := durationMs o; isRunning := false; isPaused := false;
     deadline := None; timeoutId := None; pausedRemainingMs := None;
     timers := []; next_id := 1%nat;
     listening := true; completions := 0%nat |}.

(** [useRobustTimer]; the three clock reads are those of the [start] that
    [autoStart] triggers.  The body has no [throw]. *)
Definition useRobustTimer (o : options) (now now_t now_s : Z) : js_result world :=
  Returned (if autoStart o then start o now now_t now_s (fresh o) else fresh o).

(** ** Events *)

(** What can happen to a constructed engine: a call of its public
    interface, a registered timer firing, a [visibilitychange] event with
    the value [document.hidden] has then, the owning component being
    unmounted.  Events carry the clock reads their handlers make. *)
Inductive event :=
| CallStart (now now_t now_s : Z)
| CallPause
| CallStop
| CallReset
| TimerFires (id : nat) (now now_s : Z)
| VisibilityChange (hidden : bool) (now now_s : Z)
| Unmounted.

(** A timer that fires leaves the timer table, then runs its callback,
    [() => { tick() }]. *)
Definition fire (o : options) (id : nat) (now now_s : Z) (w : world) : world :=
  tick o now now_s (clearTimeout id w).

(** One event; [None] when the event cannot happen (a timer that is not
    registered does not fire). *)
Definition step (o : options) (e : event) (w : world) : option world :=
  match e with
  | CallStart now now_t now_s => Some (start o now now_t now_s w)
  | CallPause => Some (pause w)
  | CallStop => Some (stop o w)
  | CallReset => Some (reset o w)
  | TimerFires id now now_s =>
      if pending id w then Some (fire o id now now_s w) else None
  | VisibilityChange hidden now now_s =>
      Some (if listening w then handleVisibilityChange o hidden now now_s w else w)
  | Unmounted => Some (unmounted w)
  end.

Fixpoint run (o : options) (evs : list event) (w : world) : option world :=
  match evs with
  | [] => Some w
  | e :: evs' =>
      match step o e w with
      | Some w' => run o evs' w'
      | None => None
      end
  end.

(** The states an engine built with options [o] can be in. *)
Inductive reachable (o : options) : world -> Prop :=
| reach_built : forall now now_t now_s w,
    useRobustTimer o now now_t now_s = Returned w -> reachable o w
| reach_step : forall w e w',
    reachable o w -> step o e w = Some w' -> reachable o w'.

(** An event all of whose clock reads return [t]. *)
Definition start_at (t : Z) : event := CallStart t t t.
Definition fires_at (id : nat) (t : Z) : event := TimerFires id t t.
Definition shown_at (t : Z) : event := VisibilityChange false t t.
Definition hidden_at (t : Z) : event := VisibilityChange true t t.

(** ** The states named by the specification, read off the flags *)

Definition running (w : world) : Prop := isRunning w = true.

Definition paused (w : world) : Prop :=
  isRunning w = false /\ isPaused w = true.

Definition completed (w : world) : Prop :=
  isRunning w = false /\ isPaused w = false /\ remainingMs w = 0.

(** ** Consistency of the internal state *)

(** What every reachable state satisfies: a deadline and a captured
    remaining time are never both present; a captured remaining time is
    the displayed one and goes with the paused flags; a running engine has
    a deadline; and the displayed time is not negative when the configured
    duration is not. *)
Definition consistent (o : options) (w : world) : Prop :=
  (deadline w <> None -> pausedRemainingMs w = None) /\
  (forall p, pausedRemainingMs w = Some p ->
     isPaused w = true /\ isRunning w = false /\ remainingMs w = p) /\
  (isRunning w = true -> deadline w <> None /\ isPaused w = false) /\
  (0 <= durationMs o -> 0 <= remainingMs w).

Ltac split_world w :=
  destruct w as [rem run psd dl tid prm tms nid lst cnt].

Ltac crush_consistent :=
  unfold consistent; simpl;
  repeat match goal with
         | |- context [match ?x with _ => _ end] => destruct x eqn:?; simpl
         end;
  intuition (try congruence; try discriminate; try lia).

(** ** Concrete options, states and runs *)

(** A clock value, in milliseconds since the epoch. *)
Definition T : Z := 1762000000000.

(** A one-second countdown with a completion callback, not auto-started. *)
Definition one_second : options := mkOptions 1000 true false.

(** A five-second countdown with a completion callback, not auto-started. *)
Definition five_seconds : options := mkOptions 5000 true false.

(** The page is hidden and shown again 200 ms after [start()], before the
    first wake-up is due. *)
Definition one_resync : list event :=
  [start_at T; hidden_at (T + 100); shown_at (T + 200)].

(** The page is hidden and shown twice within the second; the wake-ups
    registered by [start()] and by the first resync then fire at the
    deadline. *)
Definition two_resyncs_then_deadline : list event :=
  [start_at T; hidden_at (T + 100); shown_at (T + 200);
   hidden_at (T + 300); shown_at (T + 400);
   fires_at 1 (T + 1000); fires_at 2 (T + 1000)].

(** [start()], then the wake-up it registered fires at the deadline. *)
Definition run_to_deadline : list event :=
  [start_at T; fires_at 1 (T + 1000)].

(** ** Runs of wake-ups and what they display *)

(** The events that recompute: a wake-up firing and a visibility change. *)
Inductive wakeup :=
| Fired (id : nat) (now now_s : Z)
| Resync (hidden : bool) (now now_s : Z).

Definition event_of (k : wakeup) : event :=
  match k with
  | Fired id now now_s => TimerFires id now now_s
  | Resync hidden now now_s => VisibilityChange hidden now now_s
  end.

(** The clock value [tick] reads when the event is handled. *)
Definition clock_of (k : wakeup) : Z :=
  match k with
  | Fired _ now _ => now
  | Resync _ now _ => now
  end.

(** The values [remainingMs] takes after each event of a run. *)
Fixpoint remaining_after (o : options) (ks : list wakeup) (w : world) : list Z :=
  match ks with
  | [] => []
  | k :: ks' =>
      match step o (event_of k) w with
      | Some w' => remainingMs w' :: remaining_after o ks' w'
      | None => []
      end
  end.

(** [t <= x1 <= x2 <= ...] *)
Fixpoint ascending (t : Z) (l : list Z) : Prop :=
  match l with
  | [] => True
  | x :: l' => t <= x /\ ascending x l'
  end.

(** [r >= x1 >= x2 >= ...] *)
Fixpoint descending (r : Z) (l : list Z) : Prop :=
  match l with
  | [] => True
  | x :: l' => x <= r /\ descending x l'
  end.

(** A five-second countdown right after [start()] at [T], a run of two
    wake-ups with a resync in between, and a run that ends paused. *)
Definition after_start : world :=
  mkWorld 5000 true false (Some (T + 5000)) (Some 1%nat) None
    [mkTimer 1 1000] 2 true 0.

Definition three_recomputations : list wakeup :=
  [Fired 1 (T + 1000) (T + 1000); Resync false (T + 1500) (T + 1500);
   Fired 2 (T + 2000) (T + 2000)].

Definition start_wake_pause : list event :=
  [start_at T; fires_at 1 (T + 1000); CallPause].

(** ** The pause and resume round trip *)

(** Wake-ups of an engine nobody disturbs: the timer registered last
    fires, at the given clock values, handles being handed out in
    sequence. *)
Fixpoint wakeups_from (id : nat) (ts : list Z) : list event :=
  match ts with
  | [] => []
  | t :: ts' => fires_at id t :: wakeups_from (S id) ts'
  end.

(** [start()] at [t0], wake-ups at [ts], [pause()], [start()] at [tr]. *)
Definition pause_resume (t0 : Z) (ts : list Z) (tr : Z) : list event :=
  start_at t0 :: wakeups_from 1 ts ++ [CallPause; start_at tr].

(** Time spent running until the deadline of the resumed engine, when it
    ran from [t0] to [tp], where [pause()] was called, and again from
    [tr]. *)
Definition running_time_to_completion (t0 tp tr : Z) (w : world) : option Z :=
  match deadline w with
  | Some d => Some ((tp - t0) + (d - tr))
  | None => None
  end.

(** The round trip as the specification states it: whatever the run, the
    time spent running adds up to the configured duration. *)
Definition round_trip_exact (o : options) (t0 : Z) (ts : list Z) (tp tr : Z) : Prop :=
  forall w,
    run o (pause_resume t0 ts tr) (fresh o) = Some w ->
    running_time_to_completion t0 tp tr w = Some (durationMs o).

(** A running engine whose tracked wake-up [id] is registered and was
    the last handle given out. *)
Definition ticking (d : Z) (id : nat) (w : world) : Prop :=
  isRunning w = true /\ deadline w = Some d /\
  timeoutId w = Some id /\ pending id w = true /\ next_id w = S id.

(** ** Runs without a resync of the running engine *)

(** The bookkeeping [timeoutId] is meant to keep: no wake-up is
    registered, or the engine is running and the one registered wake-up
    is the tracked one. *)
Definition tracked_only (w : world) : Prop :=
  timers w = [] \/
  (isRunning w = true /\
   exists t, timers w = [t] /\ timeoutId w = Some (tm_id t)).

(** The page becoming visible. *)
Definition shows (e : event) : bool :=
  match e with
  | VisibilityChange false _ _ => true
  | _ => false
  end.

Definition never_shown (evs : list event) : bool :=
  forallb (fun e => negb (shows e)) evs.

(** Calls of [start()] in a run. *)
Fixpoint starts (evs : list event) : nat :=
  match evs with
  | [] => 0%nat
  | CallStart _ _ _ :: evs' => S (starts evs')
  | _ :: evs' => starts evs'
  end.

Definition running_count (w : world) : nat := if isRunning w then 1%nat else 0%nat.

(** ** Clock reads and uninterrupted runs *)

(** The clock value [tick] reads while the event is handled, for the
    events that reach [tick]. *)
Definition clock_read (e : event) : option Z :=
  match e with
  | CallStart _ now_t _ => Some now_t
  | TimerFires _ now _ => Some now
  | VisibilityChange _ now _ => Some now
  | _ => None
  end.

(** [start()] at [t0], then the tracked wake-up fires at each of [ts]. *)
Definition uninterrupted (t0 : Z) (ts : list Z) : list event :=
  start_at t0 :: wakeups_from 1 ts.

(** An uninterrupted run whose last wake-up fires at [t_end]. *)
Definition countdown (t0 : Z) (ts : list Z) (t_end : Z) : list event :=
  start_at t0 :: wakeups_from 1 ts ++ [fires_at (1 + length ts) t_end].

(** The paused flag is only ever set together with a captured remaining
    time. *)
Definition paused_has_capture (w : world) : Prop :=
  isPaused w = true -> pausedRemainingMs w <> None.

(** * The timer view

    The script of the view that drives the engine: the constants, the
    computed values and the [disabled] bindings of its two buttons. *)

Module TimerView.

Definition TIMER_DURATION_MINUTES : Z := 30.

Definition TIMER_DURATION_MS : Z := TIMER_DURATION_MINUTES * 60 * 1000.

(** The options the view passes to [useRobustTimer]; its [onComplete]
    plays the notification. *)
Definition timer_options : options := mkOptions TIMER_DURATION_MS true false.

(** [String(n)] for an integer [n] of fewer than 22 digits. *)
Definition js_String (n : Z) : string := NilZero.string_of_int (Z.to_int n).

Fixpoint repeat_char (c : ascii) (n : nat) : string :=
  match n with
  | O => EmptyString
  | S n' => String c (repeat_char c n')
  end.

(** [s.padStart(target, c)] for a one-character pad [c]. *)
Definition padStart (target : nat) (c : ascii) (s : string) : string :=
  (repeat_char c (target - String.length s) ++ s)%string.

(** [formattedTime]; [Math.floor(a / b)] on integers is [a / b]. *)
Definition formattedTime (remainingMs : Z) : string :=
  let totalSeconds := remainingMs / 1000 in
  let minutes := totalSeconds / 60 in
  let seconds := js_rem totalSeconds 60 in
  (padStart 2 "0" (js_String minutes) ++ ":" ++ padStart 2 "0" (js_String seconds))%string.

(** [startButtonText] *)
Definition startButtonText (w : world) : string :=
  if isRunning w then "Pause"%string
  else if isPaused w then "Resume"%string
  else "Start"%string.

(** What [startButtonAction] does when called: [pause] or [start]. *)
Definition startButtonAction (o : options) (now now_t now_s : Z) (w : world) : world :=
  if isRunning w then pause w else start o now now_t now_s w.

(** [:disabled="remainingMs <= 0"] on the first button. *)
Definition startButtonDisabled (w : world) : bool := remainingMs w <=? 0.

(** [:disabled="!isRunning && !isPaused"] on the Stop button. *)
Definition stopButtonDisabled (w : world) : bool :=
  negb (isRunning w) && negb (isPaused w).

(** A click; a disabled button emits none. *)
Definition click_main (o : options) (now now_t now_s : Z) (w : world) : option world :=
  if startButtonDisabled w then None
  else Some (startButtonAction o now now_t now_s w).

Definition click_stop (o : options) (w : world) : option world :=
  if stopButtonDisabled w then None else Some (stop o w).

(** The character of a decimal digit and a number below 100 on two digits. *)
Definition digit (k : Z) : ascii := ascii_of_nat (48 + Z.to_nat k).

Definition two_digits (n : Z) : string :=
  String (digit (n / 10)) (String (digit (n mod 10)) EmptyString).

End TimerView.

(** * The interval-driven timer view ([views/TimerView.vue])

    The view that counts down by itself, with [setInterval]: its state,
    the registered repeating timers of the browser, and its buttons. *)

Module IntervalTimerView.

Definition TIMER_DURATION_MS : Z := 30 * 60 * 1000.

Record view := mkView {
  remainingMs : Z;
  isRunning : bool;
  intervalId : option nat;
  intervals : list nat;     (* repeating timers registered and not cleared *)
  next_id : nat             (* next handle [setInterval] hands out *)
}.

(** [if (intervalId)]: [null] and [0] are falsy. *)
Definition truthy (x : option nat) : bool :=
  match x with
  | Some n => negb (Nat.eqb n 0)
  | None => false
  end.

Definition clearInterval (id : nat) (v : view) : view :=
  {| remainingMs := remainingMs v; isRunning := isRunning v;
     intervalId := intervalId v;
     intervals := filter (fun i => negb (Nat.eqb i id)) (intervals v);
     next_id := next_id v |}.

(** [stop] *)
Definition stop (v : view) : view :=
  let v1 :=
    if truthy (intervalId v) then
      match intervalId v with
      | Some id =>
          let v0 := clearInterval id v in
          {| remainingMs := remainingMs v0; isRunning := isRunning v0;
             intervalId := None; intervals := intervals v0; next_id := next_id v0 |}
      | None => v
      end
    else v in
  {| remainingMs := TIMER_DURATION_MS; isRunning := false;
     intervalId := intervalId v1; intervals := intervals v1; next_id := next_id v1 |}.

(** The callback [start] hands to [setInterval]. *)
Definition on_interval (v : view) : view :=
  let v1 :=
    {| remainingMs := remainingMs v - 1000; isRunning := isRunning v;
       intervalId := intervalId v; intervals := intervals v; next_id := next_id v |} in
  if remainingMs v1 <=? 0 then
    let v2 := stop v1 in
    {| remainingMs := 0; isRunning := isRunning v2;
       intervalId := intervalId v2; intervals := intervals v2; next_id := next_id v2 |}
  else v1.

(** [start] *)
Definition start (v : view) : view :=
  if isRunning v then v
  else
    {| remainingMs := remainingMs v; isRunning := true;
       intervalId := Some (next_id v);
       intervals := intervals v ++ [next_id v];
       next_id := S (next_id v) |}.

(** The [onUnmounted] hook. *)
Definition unmounted (v : view) : view :=
  if truthy (intervalId v) then
    match intervalId v with
    | Some id => clearInterval id v
    | None => v
    end
  else v.

Definition fresh : view :=
  {| remainingMs := TIMER_DURATION_MS; isRunning := false; intervalId := None;
     intervals := []; next_id := 1%nat |}.

(** Start is disabled while running, Stop unless running; a repeating
    timer fires as long as it is registered. *)
Inductive event :=
| ClickStart
| ClickStop
| IntervalFires (id : nat)
| Unmounted.

Definition step (e : event) (v : view) : option view :=
  match e with
  | ClickStart => if isRunning v then None else Some (start v)
  | ClickStop => if negb (isRunning v) then None else Some (stop v)
  | IntervalFires id =>
      if existsb (Nat.eqb id) (intervals v) then Some (on_interval v) else None
  | Unmounted => Some (unmounted v)
  end.

Fixpoint run (evs : list event) (v : view) : option view :=
  match evs with
  | [] => Some v
  | e :: evs' =>
      match step e v with
      | Some v' => run evs' v'
      | None => None
      end
  end.

Inductive reachable : view -> Prop :=
| reach_fresh : reachable fresh
| reach_step : forall v e v', reachable v -> step e v = Some v' -> reachable v'.

(** What the view keeps true. *)
Definition well_formed (v : view) : Prop :=
  0 <= remainingMs v <= TIMER_DURATION_MS /\
  remainingMs v mod 1000 = 0 /\
  (next_id v <> 0)%nat /\
  (intervals v = [] \/
   (isRunning v = true /\ exists id, intervals v = [id] /\
      intervalId v = Some id /\ id <> 0%nat /\ (id < next_id v)%nat)).

End IntervalTimerView.

(** * The theme store

    The module-level state of the theme store, the part of the browser it
    reads and writes (the item of [localStorage] under its key and the
    colour-scheme media query), and the watcher that saves the theme. *)

Module ThemeStore.

(** ['light' | 'dark' | 'system'] *)
Inductive ThemeMode := light | dark | system.

(** ['light' | 'dark'] *)
Inductive EffectiveTheme := eff_light | eff_dark.

Definition DEFAULT_THEME : ThemeMode := system.

(** The string a mode is in the source. *)
Definition mode_string (m : ThemeMode) : string :=
  match m with
  | light => "light"
  | dark => "dark"
  | system => "system"
  end.

Definition mode_eqb (a b : ThemeMode) : bool :=
  match a, b with
  | light, light | dark, dark | system, system => true
  | _, _ => false
  end.

Record browser := mkBrowser {
  has_window : bool;         (* [typeof window !== 'undefined'] *)
  has_matchMedia : bool;     (* ['matchMedia' in window] *)
  prefers_dark : bool;       (* [matches] of the colour-scheme query *)
  getItem_works : bool;      (* [localStorage.getItem] does not throw *)
  setItem_works : bool;      (* [localStorage.setItem] does not throw *)
  item : option string       (* what is stored under [STORAGE_KEY] *)
}.

(** [loadTheme]; a throw of [getItem] is caught and logged. *)
Definition loadTheme (b : browser) : ThemeMode :=
  if negb (has_window b) then DEFAULT_THEME
  else if negb (getItem_works b) then DEFAULT_THEME
  else
    match item b with
    | Some stored =>
        if negb (String.eqb stored "") &&
           (String.eqb stored "light" || String.eqb stored "dark"
            || String.eqb stored "system")
        then
          if String.eqb stored "light" then light
          else if String.eqb stored "dark" then dark
          else system
        else DEFAULT_THEME
    | None => DEFAULT_THEME
    end.

(** [saveTheme]; a throw of [setItem] is caught and logged. *)
Definition saveTheme (mode : ThemeMode) (b : browser) : browser :=
  if negb (has_window b) then b
  else if negb (setItem_works b) then b
  else
    {| has_window := has_window b; has_matchMedia := has_matchMedia b;
       prefers_dark := prefers_dark b;
       getItem_works := getItem_works b; setItem_works := setItem_works b;
       item := Some (mode_string mode) |}.

(** [getSystemPrefersDark] *)
Definition getSystemPrefersDark (b : browser) : bool :=
  if negb (has_window b) || negb (has_matchMedia b) then false
  else prefers_dark b.

Record store := mkStore {
  theme : ThemeMode;
  systemPrefersDark : bool;
  watched : ThemeMode;       (* the value the watcher of [theme] saw last *)
  env : browser
}.

(** The state once the module has been evaluated. *)
Definition init (b : browser) : store :=
  {| theme := loadTheme b; systemPrefersDark := getSystemPrefersDark b;
     watched := loadTheme b; env := b |}.

(** [effectiveTheme] *)
Definition effectiveTheme (s : store) : EffectiveTheme :=
  match theme s with
  | system => if systemPrefersDark s then eff_dark else eff_light
  | light => eff_light
  | dark => eff_dark
  end.

(** [setTheme] *)
Definition setTheme (newMode : ThemeMode) (s : store) : store :=
  {| theme := newMode; systemPrefersDark := systemPrefersDark s;
     watched := watched s; env := env s |}.

(** [toggleTheme] *)
Definition toggleTheme (s : store) : store :=
  match effectiveTheme s with
  | eff_dark => setTheme light s
  | eff_light => setTheme dark s
  end.

(** [handleChange], attached when the browser has [matchMedia]. *)
Definition handleChange (matches : bool) (s : store) : store :=
  if has_window (env s) && has_matchMedia (env s) then
    {| theme := theme s; systemPrefersDark := matches;
       watched := watched s; env := env s |}
  else s.

(** The watcher of [theme] runs: if the value differs from the one it
    saw last, its callback saves the new value. *)
Definition flush (s : store) : store :=
  if mode_eqb (theme s) (watched s) then s
  else
    {| theme := theme s; systemPrefersDark := systemPrefersDark s;
       watched := theme s; env := saveTheme (theme s) (env s) |}.

Inductive action :=
| SetTheme (newMode : ThemeMode)
| ToggleTheme
| SystemChanges (matches : bool)
| Flush.

Definition apply_action (a : action) (s : store) : store :=
  match a with
  | SetTheme m => setTheme m s
  | ToggleTheme => toggleTheme s
  | SystemChanges m => handleChange m s
  | Flush => flush s
  end.

Definition apply_actions (acts : list action) (s : store) : store :=
  fold_left (fun s a => apply_action a s) acts s.

Definition opposite (e : EffectiveTheme) : EffectiveTheme :=
  match e with
  | eff_light => eff_dark
  | eff_dark => eff_light
  end.

End ThemeStore.

(** ** Running time over a cycle with pauses *)

(** The book a stop-watch beside the engine would keep over a cycle,
    from a [start()] with nothing captured on. *)
Record ledger := mkLedger {
  ran : Z;      (* time spent running in the intervals a pause() closed *)
  since : Z;    (* clock value start() read when the open interval began *)
  lag : Z;      (* summed over the pauses: time from the last
                   recomputation of remainingMs to the pause() *)
  seen : Z      (* clock value of the last recomputation of remainingMs *)
}.

(** The clock value [tick] reads when the event gets past its guards to
    the recomputation of [remainingMs]: a wake-up of an engine with a
    deadline, a resync of a running one. *)
Definition recomputes_at (e : event) (w : world) : option Z :=
  match e with
  | TimerFires _ now _ =>
      if falsy (deadline w) then None else Some now
  | VisibilityChange hidden now _ =>
      if listening w && negb hidden && isRunning w && negb (falsy (deadline w))
      then Some now else None
  | _ => None
  end.

(** How the book changes with an event that happens at wall-clock time
    [wall] in state [w].  Only [pause()], which reads no clock, needs [wall]. *)
Definition account (wall : Z) (e : event) (w : world) (l : ledger) : ledger :=
  match e with
  | CallStart now now_t _ =>
      if isRunning w then l
      else
        match pausedRemainingMs w with
        | Some _ => mkLedger (ran l) now (lag l) now_t
        | None => mkLedger 0 now 0 now_t
        end
  | CallPause =>
      if isRunning w
      then mkLedger (ran l + (wall - since l)) (since l) (lag l + (wall - seen l)) (seen l)
      else l
  | _ =>
      match recomputes_at e w with
      | Some n => mkLedger (ran l) (since l) (lag l) n
      | None => l
      end
  end.

(** A run of events, each with the wall-clock time it happens at, and
    the book kept beside it. *)
Fixpoint run_timed (o : options) (evs : list (Z * event)) (w : world) (l : ledger)
    : option (world * ledger) :=
  match evs with
  | [] => Some (w, l)
  | (wall, e) :: evs' =>
      match step o e w with
      | Some w' => run_timed o evs' w' (account wall e w l)
      | None => None
      end
  end.

(** The clock values [start()] reads are not negative. *)
Definition start_reads_nonnegative (evs : list (Z * event)) : Prop :=
  Forall (fun te => match snd te with
                    | CallStart now _ _ => 0 <= now
                    | _ => True
                    end) evs.

(** The book agrees with the engine: if the engine runs on to its
    deadline, or is resumed and then does, the time it will have spent
    running is the configured duration plus the lag. *)
Definition balanced (o : options) (w : world) (l : ledger) : Prop :=
  (isRunning w = true ->
     exists d, deadline w = Some d /\ d <> 0 /\
       remainingMs w = d - seen l /\ 0 < remainingMs w /\
       ran l + (d - since l) = durationMs o + lag l) /\
  (forall r, pausedRemainingMs w = Some r ->
     0 < r /\ ran l + r = durationMs o + lag l).

(** A cycle with a resync before the first pause and a second pause. *)
Definition two_pauses : list (Z * event) :=
  [(T, start_at T);
   (T + 1000, fires_at 1 (T + 1000));
   (T + 1400, hidden_at (T + 1400));
   (T + 1500, shown_at (T + 1500));
   (T + 1900, CallPause);
   (T + 10000, start_at (T + 10000));
   (T + 10700, CallPause)].

(** * Properties *)

(** ** Facts about single operations *)

Lemma tick_keeps_deadline (o : options) (now now_s : Z) (w : world) :
  deadline (tick o now now_s w) = deadline w.
Proof.
  unfold tick, complete, call_onComplete, scheduleNext, clearTimer.
  destruct (falsy (deadline w)) eqn:F; [reflexivity |].
  destruct (deadline w) as [d |] eqn:D; [| simpl in F; discriminate].
  destruct (Z.max 0 (d - now) <=? 0); simpl.
  - destruct (timeoutId w); destruct (onComplete o); simpl; exact D.
  - rewrite D, F. simpl. reflexivity.
Qed.

Lemma tick_keeps_paused (o : options) (now now_s : Z) (w : world) :
  pausedRemainingMs (tick o now now_s w) = pausedRemainingMs w.
Proof.
  unfold tick, complete, call_onComplete, scheduleNext, clearTimer.
  destruct (falsy (deadline w)) eqn:F; [reflexivity |].
  destruct (deadline w) as [d |] eqn:D; [| simpl in F; discriminate].
  destruct (Z.max 0 (d - now) <=? 0); simpl.
  - destruct (timeoutId w); destruct (onComplete o); reflexivity.
  - rewrite D, F. reflexivity.
Qed.

(** The remaining time a wake-up leaves behind. *)
Lemma tick_remainingMs (o : options) (now now_s : Z) (w : world) (d : Z) :
  deadline w = Some d -> d <> 0 ->
  remainingMs (tick o now now_s w) = Z.max 0 (d - now).
Proof.
  intros D N. unfold tick. rewrite D. simpl.
  apply Z.eqb_neq in N. rewrite N.
  destruct (Z.max 0 (d - now) <=? 0) eqn:E.
  - apply Z.leb_le in E.
    unfold complete, call_onComplete, clearTimer; simpl.
    destruct (timeoutId w); destruct (onComplete o); simpl; lia.
  - unfold scheduleNext. simpl. rewrite D. simpl. rewrite N. reflexivity.
Qed.

Lemma tick_remaining_cases (o : options) (now now_s : Z) (w : world) (d : Z) :
  deadline w = Some d ->
  remainingMs (tick o now now_s w) = remainingMs w \/
  remainingMs (tick o now now_s w) = Z.max 0 (d - now).
Proof.
  intros D. destruct (Z.eq_dec d 0) as [-> | N].
  - left. unfold tick. rewrite D. reflexivity.
  - right. now apply tick_remainingMs.
Qed.

Lemma tick_before_deadline (o : options) (now now_s : Z) (w : world) (d : Z) :
  deadline w = Some d -> d <> 0 -> now < d ->
  tick o now now_s w = scheduleNext now_s (set_remainingMs (d - now) w).
Proof.
  intros D N L. unfold tick. rewrite D. simpl.
  apply Z.eqb_neq in N. rewrite N.
  replace (Z.max 0 (d - now)) with (d - now) by lia.
  destruct (d - now <=? 0) eqn:E; [apply Z.leb_le in E; lia | reflexivity].
Qed.

(** Before the deadline a wake-up registers one more timer; its delay
    comes from the clock value [scheduleNext] reads. *)
Lemma tick_registers (o : options) (now now_s : Z) (w : world) (d : Z) :
  deadline w = Some d -> d <> 0 -> now < d ->
  timers (tick o now now_s w) =
    timers w ++
      [mkTimer (next_id w) (js_or (js_rem (Z.max 0 (d - now_s)) 1000) 1000)] /\
  timeoutId (tick o now now_s w) = Some (next_id w).
Proof.
  intros D N L. rewrite (tick_before_deadline o now now_s w d D N L).
  unfold scheduleNext. simpl. rewrite D. simpl.
  apply Z.eqb_neq in N. rewrite N. simpl. split; reflexivity.
Qed.

(** A resync of a running engine before its deadline adds a wake-up to
    those already registered. *)
Lemma resync_registers (o : options) (now now_s : Z) (w : world) (d : Z) :
  isRunning w = true -> deadline w = Some d -> d <> 0 -> now < d ->
  length (timers (handleVisibilityChange o false now now_s w))
    = S (length (timers w)).
Proof.
  intros R D N L. unfold handleVisibilityChange. rewrite R. simpl.
  destruct (tick_registers o now now_s w d D N L) as (E & _).
  rewrite E, length_app. simpl. lia.
Qed.

(** [(left % 1000) || 1000] written with the mathematical remainder. *)
Lemma nextTickDelay_mod (left : Z) :
  0 <= left ->
  js_or (js_rem left 1000) 1000 =
  if left mod 1000 =? 0 then 1000 else left mod 1000.
Proof.
  intros H. unfold js_or, js_rem.
  rewrite Z.rem_mod_nonneg by lia. reflexivity.
Qed.

Lemma nextTickDelay_range (left : Z) :
  0 <= left -> 1 <= js_or (js_rem left 1000) 1000 <= 1000.
Proof.
  intros H. rewrite nextTickDelay_mod by assumption.
  pose proof (Z.mod_pos_bound left 1000 ltac:(lia)).
  destruct (left mod 1000 =? 0) eqn:E; [lia |].
  apply Z.eqb_neq in E. lia.
Qed.

Lemma resume_deadline (o : options) (w : world) (r now now_t now_s : Z) :
  isRunning w = false -> pausedRemainingMs w = Some r ->
  deadline (start o now now_t now_s w) = Some (now + r) /\
  pausedRemainingMs (start o now now_t now_s w) = None.
Proof.
  intros R P. unfold start. rewrite R, P.
  rewrite tick_keeps_deadline, tick_keeps_paused. split; reflexivity.
Qed.

(** ** Every reachable state is consistent *)

Create HintDb timer discriminated.

Section Consistency.

Variable o : options.

Lemma consistent_fresh : consistent o (fresh o).
Proof. crush_consistent. Qed.

Lemma consistent_clearTimeout (id : nat) (w : world) :
  consistent o w -> consistent o (clearTimeout id w).
Proof. split_world w. unfold clearTimeout. crush_consistent. Qed.

Lemma consistent_tick (now now_s : Z) (w : world) :
  consistent o w -> consistent o (tick o now now_s w).
Proof.
  split_world w.
  unfold tick, complete, call_onComplete, scheduleNext, clearTimer, setTimeout,
    set_timeoutId, clearTimeout, set_remainingMs, falsy.
  simpl. unfold consistent. simpl. intros (H1 & H2 & H3 & H4).
  destruct dl as [d|]; simpl; [| tauto].
  destruct (d =? 0); simpl; [tauto |].
  assert (P : prm = None) by (apply H1; discriminate). subst prm.
  destruct (Z.max 0 (d - now) <=? 0) eqn:E; simpl.
  - destruct tid; destruct (onComplete o); simpl;
      (repeat split; intros; try congruence; try discriminate; try lia; auto).
  - repeat split; intros; try congruence; try discriminate; try lia; auto;
      apply H3; assumption.
Qed.

Lemma consistent_start (now now_t now_s : Z) (w : world) :
  consistent o w -> consistent o (start o now now_t now_s w).
Proof.
  intros H. unfold start. destruct (isRunning w) eqn:R; [assumption |].
  apply consistent_tick. destruct H as (H1 & H2 & H3 & H4).
  unfold consistent; simpl.
  repeat split; intros; try congruence; try discriminate; auto.
Qed.

Lemma consistent_pause (w : world) :
  consistent o w -> consistent o (pause w).
Proof.
  intros H. unfold pause. destruct (isRunning w) eqn:R; simpl; [| assumption].
  destruct H as (H1 & H2 & H3 & H4).
  unfold consistent, clearTimer. destruct (timeoutId w); simpl;
    (repeat split; intros; try congruence; try discriminate; auto).
Qed.

Lemma consistent_stop (w : world) :
  consistent o w -> consistent o (stop o w).
Proof.
  intros _. unfold consistent, stop; simpl.
  repeat split; intros; try congruence; try discriminate; auto.
Qed.

Lemma consistent_unmounted (w : world) :
  consistent o w -> consistent o (unmounted w).
Proof.
  intros H. unfold unmounted, clearTimer, consistent in *.
  destruct (timeoutId w); simpl; exact H.
Qed.

#[local] Hint Resolve consistent_fresh consistent_clearTimeout consistent_tick
  consistent_start consistent_pause consistent_stop consistent_unmounted : timer.

Lemma consistent_step (e : event) (w w' : world) :
  consistent o w -> step o e w = Some w' -> consistent o w'.
Proof.
  intros H S. destruct e; simpl in S.
  - injection S as <-. auto with timer.
  - injection S as <-. auto with timer.
  - injection S as <-. auto with timer.
  - injection S as <-. unfold reset. auto with timer.
  - destruct (pending id w); [| discriminate]. injection S as <-.
    unfold fire. auto with timer.
  - injection S as <-. unfold handleVisibilityChange.
    destruct (listening w); [| assumption].
    destruct (hidden || negb (isRunning w)); auto with timer.
  - injection S as <-. auto with timer.
Qed.

Lemma reachable_consistent (w : world) :
  reachable o w -> consistent o w.
Proof.
  induction 1 as [now now_t now_s w B | w e w' _ IH S].
  - unfold useRobustTimer in B. injection B as <-.
    destruct (autoStart o).
    + apply consistent_start, consistent_fresh.
    + apply consistent_fresh.
  - eapply consistent_step; eassumption.
Qed.

(** A deadline and a captured remaining time are never both present. *)
Lemma deadline_excludes_paused (w : world) :
  reachable o w -> deadline w = None \/ pausedRemainingMs w = None.
Proof.
  intros R. destruct (reachable_consistent w R) as (H1 & _).
  destruct (deadline w); [right; apply H1; discriminate | now left].
Qed.

End Consistency.

(** A feasible run from a reachable state ends in a reachable state. *)
Lemma reachable_run (o : options) (evs : list event) (w w' : world) :
  reachable o w -> run o evs w = Some w' -> reachable o w'.
Proof.
  revert w. induction evs as [| e evs IH]; simpl; intros w R E.
  - injection E as <-. exact R.
  - destruct (step o e w) as [w1 |] eqn:S; [| discriminate].
    apply (IH w1); [eapply reach_step; eassumption | exact E].
Qed.

Lemma reachable_fresh (o : options) :
  autoStart o = false -> reachable o (fresh o).
Proof.
  intros A. apply (reach_built o 0 0 0). unfold useRobustTimer. now rewrite A.
Qed.

Lemma reachable_from_fresh (o : options) (evs : list event) (w : world) :
  autoStart o = false -> run o evs (fresh o) = Some w -> reachable o w.
Proof.
  intros A E. eapply reachable_run; [apply reachable_fresh, A | exact E].
Qed.

(** ** Concrete runs *)

(** The run to the deadline ends in a reachable completed state. *)
Lemma run_to_deadline_completes :
  exists w,
    run one_second run_to_deadline (fresh one_second) = Some w /\
    reachable one_second w /\
    completed w.
Proof.
  eexists. split; [vm_compute; reflexivity |].
  split.
  - apply (reachable_from_fresh one_second run_to_deadline); [reflexivity |].
    vm_compute; reflexivity.
  - repeat split.
Defined.

Lemma after_start_reachable :
  run five_seconds [start_at T] (fresh five_seconds) = Some after_start /\
  reachable five_seconds after_start.
Proof.
  assert (E : run five_seconds [start_at T] (fresh five_seconds) = Some after_start)
    by (vm_compute; reflexivity).
  split; [exact E |].
  apply (reachable_from_fresh five_seconds [start_at T]); [reflexivity | exact E].
Qed.

Lemma start_wake_pause_reachable :
  exists w,
    run five_seconds start_wake_pause (fresh five_seconds) = Some w /\
    reachable five_seconds w /\
    pausedRemainingMs w = Some 4000.
Proof.
  eexists. split; [vm_compute; reflexivity |]. split.
  - apply (reachable_from_fresh five_seconds start_wake_pause); [reflexivity |].
    vm_compute; reflexivity.
  - reflexivity.
Qed.

(** ** Runs without a resync of the running engine

    As long as the page never becomes visible while the engine exists,
    [timeoutId] tracks the one registered wake-up and the callback runs at
    most once for each [start()]. *)

Lemma tick_tracked (o : options) (now now_s : Z) (w : world) :
  timers w = [] -> isRunning w = true ->
  tracked_only (tick o now now_s w) /\
  (completions (tick o now now_s w) + running_count (tick o now now_s w)
   <= completions w + 1)%nat.
Proof.
  intros E R. unfold tick.
  destruct (falsy (deadline w)) eqn:F.
  - split; [left; exact E | unfold running_count; rewrite R; lia].
  - destruct (deadline w) as [d |] eqn:D; [| simpl in F; discriminate].
    destruct (Z.max 0 (d - now) <=? 0).
    + unfold complete, call_onComplete, clearTimer, running_count. simpl.
      destruct (timeoutId w); destruct (onComplete o); simpl; rewrite ?E;
        (split; [left; simpl; rewrite ?E; reflexivity | lia]).
    + unfold scheduleNext, running_count. simpl. rewrite D, F. simpl.
      rewrite E, R. split; [| lia].
      right. split; [reflexivity |]. eexists. split; reflexivity.
Qed.

Lemma clearTimer_tracked (w : world) :
  tracked_only w -> timers (clearTimer w) = [].
Proof.
  intros [E | (_ & t & E & I)]; unfold clearTimer.
  - destruct (timeoutId w); simpl; rewrite E; reflexivity.
  - rewrite I. simpl. rewrite E. unfold drop_timer, has_id. simpl.
    rewrite Nat.eqb_refl. reflexivity.
Qed.

Lemma tracked_only_step (o : options) (e : event) (w w' : world) :
  shows e = false -> tracked_only w -> step o e w = Some w' ->
  tracked_only w' /\
  (completions w' + running_count w'
   <= completions w + running_count w + starts [e])%nat.
Proof.
  intros Q J S. destruct e; simpl in S; simpl starts.
  - (* start *)
    injection S as <-. unfold start.
    destruct (isRunning w) eqn:R; [split; [exact J | lia] |].
    destruct J as [E | (R' & _)]; [| congruence].
    match goal with |- context [tick o ?a ?b ?x] =>
      destruct (tick_tracked o a b x E eq_refl) as (J' & C) end.
    split; [exact J' |]. simpl in C. lia.
  - (* pause *)
    injection S as <-. unfold pause.
    destruct (isRunning w) eqn:R; simpl; [| split; [exact J | lia]].
    pose proof (clearTimer_tracked w J) as E.
    split; [left; exact E |].
    unfold running_count. simpl. rewrite R.
    unfold clearTimer. destruct (timeoutId w); simpl; lia.
  - (* stop *)
    injection S as <-. pose proof (clearTimer_tracked w J) as E.
    split; [left; exact E |].
    unfold running_count, stop, clearTimer. simpl.
    destruct (timeoutId w); destruct (isRunning w); simpl; lia.
  - (* reset *)
    injection S as <-. pose proof (clearTimer_tracked w J) as E.
    split; [left; exact E |].
    unfold running_count, reset, stop, clearTimer. simpl.
    destruct (timeoutId w); destruct (isRunning w); simpl; lia.
  - (* a wake-up fires *)
    destruct (pending id w) eqn:P; [| discriminate]. injection S as <-.
    destruct J as [E | (R & t & E & I)].
    + unfold pending in P. rewrite E in P. discriminate.
    + assert (X : tm_id t = id).
      { unfold pending in P. rewrite E in P. simpl in P. unfold has_id in P.
        rewrite orb_false_r in P. now apply Nat.eqb_eq. }
      assert (E' : timers (clearTimeout id w) = []).
      { simpl. rewrite E. unfold drop_timer, has_id. simpl.
        rewrite X, Nat.eqb_refl. reflexivity. }
      destruct (tick_tracked o now now_s (clearTimeout id w) E' R) as (J' & C).
      split; [exact J' |]. unfold fire, running_count in *. simpl in C.
      rewrite R. lia.
  - (* the page is hidden *)
    destruct hidden; [| discriminate]. injection S as <-.
    unfold handleVisibilityChange. simpl.
    destruct (listening w); split; try exact J; lia.
  - (* unmounted *)
    injection S as <-. pose proof (clearTimer_tracked w J) as E.
    split; [left; exact E |].
    unfold running_count, unmounted, clearTimer. simpl.
    destruct (timeoutId w); simpl; destruct (isRunning w); lia.
Qed.

Lemma tracked_only_run (o : options) (evs : list event) :
  forall w w',
    never_shown evs = true -> tracked_only w -> run o evs w = Some w' ->
    tracked_only w' /\
    (completions w' + running_count w'
     <= completions w + running_count w + starts evs)%nat.
Proof.
  induction evs as [| e evs IH]; intros w w' Q J E.
  - injection E as <-. split; [exact J | simpl; lia].
  - simpl in Q. apply andb_true_iff in Q. destruct Q as (Q1 & Q2).
    apply negb_true_iff in Q1.
    simpl in E. destruct (step o e w) as [w1 |] eqn:S; [| discriminate].
    destruct (tracked_only_step o e w w1 Q1 J S) as (J1 & C1).
    destruct (IH w1 w' Q2 J1 E) as (J' & C').
    split; [exact J' |].
    assert (starts (e :: evs) = starts [e] + starts evs)%nat
      by (destruct e; reflexivity).
    lia.
Qed.

(** Without a visibility resync at most one wake-up is outstanding and
    the callback has run at most once for each call of [start()]. *)
Lemma never_shown_single_wakeup (o : options) (evs : list event) (w : world) :
  never_shown evs = true -> run o evs (fresh o) = Some w ->
  (length (timers w) <= 1)%nat /\ (completions w <= starts evs)%nat.
Proof.
  intros Q E.
  destruct (tracked_only_run o evs (fresh o) w Q (or_introl eq_refl) E) as (J & C).
  split.
  - destruct J as [-> | (_ & t & -> & _)]; simpl; lia.
  - unfold running_count in C. simpl in C. destruct (isRunning w); lia.
Qed.

(** ** Outstanding wake-ups and completion *)

(** Claim C1, evaluated where it fails.  After [start()] and one
    visibility resync of the running engine two wake-ups are registered:
    [scheduleNext] registered the second without clearing the first, and
    [timeoutId] now holds the second handle only. *)
Theorem resync_leaves_two_wakeups :
  exists w,
    run one_second one_resync (fresh one_second) = Some w /\
    reachable one_second w /\
    isRunning w = true /\
    timers w = [mkTimer 1 1000; mkTimer 2 800] /\
    timeoutId w = Some 2%nat.
Proof.
  eexists. split; [vm_compute; reflexivity |].
  split.
  - apply (reachable_from_fresh one_second one_resync); [reflexivity |].
    vm_compute; reflexivity.
  - repeat split.
Qed.

(** Claim C2, evaluated where it fails.  One [start()], two visibility
    resyncs, and the two wake-ups [timeoutId] no longer tracks both fire
    at the deadline: the completion callback has run twice. *)
Theorem onComplete_invoked_twice :
  exists w,
    run one_second two_resyncs_then_deadline (fresh one_second) = Some w /\
    reachable one_second w /\
    completions w = 2%nat.
Proof.
  eexists. split; [vm_compute; reflexivity |].
  split.
  - apply (reachable_from_fresh one_second two_resyncs_then_deadline); [reflexivity |].
    vm_compute; reflexivity.
  - reflexivity.
Qed.

(** ** Construction *)

(** Claim C3 as stated fails: built with [durationMs = -5] the engine is
    returned, not rejected, and its remaining time is negative. *)
Lemma negative_duration_is_accepted :
  exists w,
    useRobustTimer (mkOptions (-5) true false) T T T = Returned w /\
    useRobustTimer (mkOptions (-5) true false) T T T <> Threw /\
    remainingMs w = -5.
Proof.
  eexists. split; [reflexivity |]. split; [discriminate | reflexivity].
Qed.

(** Claim C3, amended.  Construction rejects nothing: for every options
    record, whatever the sign of [durationMs], [useRobustTimer] returns an
    engine; built without [autoStart] that engine is idle, no wake-up is
    registered, and its remaining time is [durationMs] as given, hence
    negative when [durationMs] is. *)
Theorem useRobustTimer_accepts_every_duration :
  (forall o now now_t now_s,
     exists w, useRobustTimer o now now_t now_s = Returned w) /\
  (forall d cb now now_t now_s,
     exists w,
       useRobustTimer (mkOptions d cb false) now now_t now_s = Returned w /\
       remainingMs w = d /\
       isRunning w = false /\ isPaused w = false /\
       deadline w = None /\ pausedRemainingMs w = None /\
       timers w = [] /\ completions w = 0%nat).
Proof.
  split.
  - intros. eexists. reflexivity.
  - intros. eexists. split; [reflexivity |]. simpl. repeat split.
Qed.

(** ** Deadline and captured remaining time *)

(** Claim C4, evaluated where it fails.  After the countdown has run to
    its deadline the engine is in the completed state and [deadline] still
    holds the deadline that was reached: [complete] does not clear it. *)
Theorem completed_state_keeps_deadline :
  exists w,
    run one_second run_to_deadline (fresh one_second) = Some w /\
    reachable one_second w /\
    completed w /\
    deadline w = Some (T + 1000) /\
    pausedRemainingMs w = None.
Proof.
  eexists. split; [vm_compute; reflexivity |].
  split.
  - apply (reachable_from_fresh one_second run_to_deadline); [reflexivity |].
    vm_compute; reflexivity.
  - repeat split.
Qed.

(** ** Wake-ups *)

(** Claim C5 as stated fails.  A five-second countdown started at [T];
    a wake-up in which [tick] reads the clock at [T + 3] and
    [scheduleNext] at [T + 7] displays 4997 and registers a delay of 993,
    not of 4997 mod 1000; one in which they read [T + 4999] and
    [T + 5000] displays 1 and registers a delay of 1000. *)
Lemma delay_follows_second_clock_read :
  (remainingMs (tick five_seconds (T + 3) (T + 7) after_start) = 4997 /\
   timers (tick five_seconds (T + 3) (T + 7) after_start)
     = [mkTimer 1 1000; mkTimer 2 993] /\
   timers (tick five_seconds (T + 3) (T + 7) after_start)
     <> timers after_start ++
        [mkTimer (next_id after_start)
           (if remainingMs (tick five_seconds (T + 3) (T + 7) after_start) mod 1000 =? 0
            then 1000
            else remainingMs (tick five_seconds (T + 3) (T + 7) after_start) mod 1000)]) /\
  (remainingMs (tick five_seconds (T + 4999) (T + 5000) after_start) = 1 /\
   timers (tick five_seconds (T + 4999) (T + 5000) after_start)
     = [mkTimer 1 1000; mkTimer 2 1000]).
Proof.
  split; [split; [| split] | split].
  - vm_compute. reflexivity.
  - vm_compute. reflexivity.
  - vm_compute. discriminate.
  - vm_compute. reflexivity.
  - vm_compute. reflexivity.
Qed.

(** Claim C5, amended.  A wake-up of an engine whose deadline is [d], in
    which [tick] reads the clock at [now] and [scheduleNext] at [now_s],
    sets [remainingMs] to [max 0 (d - now)].  When that is zero the
    countdown completes: the flags are cleared, the tracked wake-up is
    cancelled and the callback, if any, is invoked.  Otherwise one
    wake-up is registered and nothing else changes; its delay is
    [max 0 (d - now_s) mod 1000] milliseconds, or 1000 when that
    remainder is zero, which is [remainingMs mod 1000], or 1000, when
    the two reads agree.  The guard [!deadline] takes the number 0 for
    an absent deadline; hence [d <> 0]. *)
Theorem tick_recomputes_and_schedules (o : options) (w : world) (d now now_s : Z) :
  deadline w = Some d -> d <> 0 ->
  let left := Z.max 0 (d - now) in
  let left_s := Z.max 0 (d - now_s) in
  let w' := tick o now now_s w in
  remainingMs w' = left /\
  (left = 0 ->
     w' = complete o (set_remainingMs 0 w) /\
     isRunning w' = false /\ isPaused w' = false /\
     timeoutId w' = None /\
     timers w' = match timeoutId w with
                 | Some id => drop_timer id (timers w)
                 | None => timers w
                 end /\
     completions w' = if onComplete o then S (completions w) else completions w) /\
  (left <> 0 ->
     timers w' = timers w ++
       [mkTimer (next_id w) (if left_s mod 1000 =? 0 then 1000 else left_s mod 1000)] /\
     timeoutId w' = Some (next_id w) /\
     isRunning w' = isRunning w /\ isPaused w' = isPaused w /\
     deadline w' = Some d /\ pausedRemainingMs w' = pausedRemainingMs w /\
     completions w' = completions w) /\
  (left <> 0 -> now_s = now ->
     timers w' = timers w ++
       [mkTimer (next_id w)
          (if remainingMs w' mod 1000 =? 0 then 1000 else remainingMs w' mod 1000)]).
Proof.
  intros D N left left_s w'.
  assert (R : remainingMs w' = left) by (apply tick_remainingMs; assumption).
  assert (K : left <> 0 ->
     timers w' = timers w ++
       [mkTimer (next_id w) (if left_s mod 1000 =? 0 then 1000 else left_s mod 1000)] /\
     timeoutId w' = Some (next_id w) /\
     isRunning w' = isRunning w /\ isPaused w' = isPaused w /\
     deadline w' = Some d /\ pausedRemainingMs w' = pausedRemainingMs w /\
     completions w' = completions w).
  { intros L. assert (P : now < d) by (subst left; lia).
    subst w'. rewrite (tick_before_deadline o now now_s w d D N P).
    unfold scheduleNext. simpl. rewrite D. simpl.
    pose proof N as N'. apply Z.eqb_neq in N'. rewrite N'. simpl.
    fold left_s. rewrite nextTickDelay_mod by (subst left_s; lia).
    repeat split. }
  split; [exact R |]. split; [| split; [exact K |]].
  - intros L. subst w'. unfold tick. rewrite D. simpl.
    pose proof N as N'. apply Z.eqb_neq in N'. rewrite N'.
    fold left. rewrite L. simpl.
    unfold complete, call_onComplete, clearTimer. simpl.
    destruct (timeoutId w) eqn:I; destruct (onComplete o); simpl;
      rewrite ?I; repeat split.
  - intros L E. destruct (K L) as (A & _). rewrite A, R.
    subst left left_s. rewrite E. reflexivity.
Qed.

Lemma tick_recomputes_and_schedules_witness :
  remainingMs (tick five_seconds (T + 1497) (T + 1500) after_start) = 3503 /\
  timers (tick five_seconds (T + 1497) (T + 1500) after_start)
    = [mkTimer 1 1000; mkTimer 2 500].
Proof.
  pose proof (tick_recomputes_and_schedules five_seconds after_start (T + 5000)
                (T + 1497) (T + 1500) eq_refl ltac:(discriminate)) as (R & _ & S & _).
  split; [exact R |].
  destruct (S ltac:(discriminate)) as (S1 & _). exact S1.
Defined.

(** ** Pause and resume *)

Lemma run_app (o : options) (l1 l2 : list event) (w : world) :
  run o (l1 ++ l2) w =
  match run o l1 w with
  | Some w' => run o l2 w'
  | None => None
  end.
Proof.
  revert w. induction l1 as [| e l1 IH]; simpl; intros w; [reflexivity |].
  destruct (step o e w); [apply IH | reflexivity].
Qed.

Lemma last_cons (t t' : Z) (ts : list Z) : last (t :: ts) t' = last ts t.
Proof.
  revert t t'. induction ts as [| x ts IH]; intros t t'; [reflexivity |].
  change (last (t :: x :: ts) t') with (last (x :: ts) t').
  rewrite (IH x t'). symmetry. apply IH.
Qed.

Lemma fire_ticking (o : options) (d : Z) (id : nat) (t : Z) (w : world) :
  ticking d id w -> d <> 0 -> t < d ->
  ticking d (S id) (fire o id t t w) /\
  remainingMs (fire o id t t w) = d - t.
Proof.
  intros (R & D & I & P & X) N L. unfold fire.
  rewrite (tick_before_deadline o t t (clearTimeout id w) d D N L).
  unfold scheduleNext, ticking. simpl. rewrite D. simpl.
  apply Z.eqb_neq in N. rewrite N. simpl. rewrite X.
  repeat split; try assumption.
  unfold pending. simpl. rewrite existsb_app. simpl.
  unfold has_id. simpl. rewrite Nat.eqb_refl.
  apply orb_true_iff. right. reflexivity.
Qed.

Lemma run_wakeups (o : options) (d : Z) (ts : list Z) :
  forall (id : nat) (w : world) (t : Z),
    ticking d id w -> d <> 0 -> remainingMs w = d - t ->
    Forall (fun x => x < d) ts ->
    exists w',
      run o (wakeups_from id ts) w = Some w' /\
      ticking d (id + length ts) w' /\
      remainingMs w' = d - last ts t.
Proof.
  induction ts as [| x ts IH]; intros id w t K N M F.
  - exists w. simpl. rewrite Nat.add_0_r. auto.
  - inversion F as [| ? ? Fx Fts]; subst.
    destruct (fire_ticking o d id x w K N Fx) as (K' & M').
    destruct (IH (S id) (fire o id x x w) x K' N M' Fts) as (w' & E & K'' & M'').
    exists w'. simpl. destruct K as (_ & _ & _ & P & _). rewrite P.
    split; [exact E |]. split.
    + now rewrite <- Nat.add_succ_comm.
    + rewrite M''. f_equal. symmetry. apply last_cons.
Qed.

Lemma start_fresh_ticking (o : options) (t0 : Z) :
  0 < durationMs o -> 0 <= t0 ->
  ticking (t0 + durationMs o) 1 (start o t0 t0 t0 (fresh o)) /\
  remainingMs (start o t0 t0 t0 (fresh o)) = (t0 + durationMs o) - t0.
Proof.
  intros PD PT. unfold start. simpl.
  rewrite (tick_before_deadline o t0 t0 _ (t0 + durationMs o))
    by (simpl; try reflexivity; lia).
  unfold scheduleNext, ticking. simpl.
  destruct (t0 + durationMs o =? 0) eqn:E; [apply Z.eqb_eq in E; lia |].
  simpl. repeat split.
Qed.

Lemma pause_captures (d : Z) (id : nat) (w : world) :
  ticking d id w ->
  isRunning (pause w) = false /\
  pausedRemainingMs (pause w) = Some (remainingMs w).
Proof.
  intros (R & _ & I & _). unfold pause, clearTimer. rewrite R, I. simpl.
  split; reflexivity.
Qed.

Lemma pause_resume_deadline (o : options) (t0 : Z) (ts : list Z) (tr : Z) :
  0 < durationMs o -> 0 <= t0 ->
  Forall (fun t => t < t0 + durationMs o) ts ->
  exists w,
    run o (pause_resume t0 ts tr) (fresh o) = Some w /\
    deadline w = Some (tr + (durationMs o - (last ts t0 - t0))).
Proof.
  intros PD PT F.
  destruct (start_fresh_ticking o t0 PD PT) as (K & M).
  destruct (run_wakeups o (t0 + durationMs o) ts 1 _ t0 K ltac:(lia) M F)
    as (w1 & E & K1 & M1).
  destruct (pause_captures _ _ w1 K1) as (R2 & P2).
  destruct (resume_deadline o (pause w1) (remainingMs w1) tr tr tr R2 P2) as (D3 & _).
  exists (start o tr tr tr (pause w1)). split.
  - unfold pause_resume. simpl. rewrite run_app, E. reflexivity.
  - rewrite D3, M1. f_equal. lia.
Qed.

(** Claim C6 as stated fails.  A five-second countdown is started at [T],
    its wake-up fires at [T + 1000], [pause()] is called at [T + 1900]
    and [start()] again at [T + 10000]: [pause] captured the 4000 ms
    displayed since the wake-up, the new deadline is [T + 14000], and the
    engine runs 1900 + 4000 = 5900 ms in all, not 5000. *)
Lemma pause_between_wakeups_adds_time :
  (exists w,
     run five_seconds (pause_resume T [T + 1000] (T + 10000)) (fresh five_seconds)
       = Some w /\
     deadline w = Some (T + 14000) /\
     running_time_to_completion T (T + 1900) (T + 10000) w = Some 5900) /\
  ~ round_trip_exact five_seconds T [T + 1000] (T + 1900) (T + 10000).
Proof.
  split.
  - eexists. split; [vm_compute; reflexivity |]. split; vm_compute; reflexivity.
  - intros H.
    specialize (H _ ltac:(vm_compute; reflexivity)).
    vm_compute in H. discriminate H.
Qed.

Lemma balanced_tick (o : options) (now now_s : Z) (w : world) (l : ledger) (d : Z) :
  deadline w = Some d -> d <> 0 -> pausedRemainingMs w = None ->
  seen l = now ->
  (isRunning w = true -> ran l + (d - since l) = durationMs o + lag l) ->
  balanced o (tick o now now_s w) l.
Proof.
  intros D N P Sn B. unfold balanced.
  rewrite tick_keeps_paused, P, tick_keeps_deadline, D.
  split; [| intros r E; discriminate E].
  rewrite (tick_remainingMs o now now_s w d D N).
  unfold tick. rewrite D. simpl.
  pose proof N as N'. apply Z.eqb_neq in N'. rewrite N'.
  destruct (Z.max 0 (d - now) <=? 0) eqn:L.
  - unfold complete, call_onComplete. destruct (onComplete o); simpl; discriminate.
  - apply Z.leb_gt in L.
    unfold scheduleNext. simpl. rewrite D. simpl. rewrite N'. simpl.
    intros R. exists d. repeat split; try assumption; try lia. apply B, R.
Qed.

Lemma balanced_same_fields (o : options) (w w' : world) (l : ledger) :
  isRunning w' = isRunning w -> deadline w' = deadline w ->
  remainingMs w' = remainingMs w -> pausedRemainingMs w' = pausedRemainingMs w ->
  balanced o w l -> balanced o w' l.
Proof. unfold balanced. intros -> -> -> ->. tauto. Qed.

Lemma balanced_reseen (o : options) (w : world) (l : ledger) (n d : Z) :
  consistent o w -> balanced o w l ->
  deadline w = Some d -> d <> 0 ->
  pausedRemainingMs w = None /\
  (isRunning w = true ->
     ran (mkLedger (ran l) (since l) (lag l) n)
       + (d - since (mkLedger (ran l) (since l) (lag l) n))
     = durationMs o + lag (mkLedger (ran l) (since l) (lag l) n)).
Proof.
  intros (H1 & _) (B1 & _) D N. split.
  - apply H1. rewrite D. discriminate.
  - intros R. destruct (B1 R) as (d' & D' & _ & _ & _ & E). simpl. congruence.
Qed.

Lemma balanced_step (o : options) (wall : Z) (e : event) (w w' : world) (l : ledger) :
  0 < durationMs o ->
  match e with CallStart now _ _ => 0 <= now | _ => True end ->
  consistent o w -> balanced o w l ->
  step o e w = Some w' ->
  balanced o w' (account wall e w l).
Proof.
  intros PD PN C B St. pose proof B as (B1 & B2).
  destruct e; simpl in St; simpl account.
  - (* start *)
    injection St as <-. unfold start. destruct (isRunning w) eqn:R; [exact B |].
    destruct (pausedRemainingMs w) as [r |] eqn:P.
    + destruct (B2 r eq_refl) as (Pr & E).
      apply (balanced_tick o now_t now_s _ _ (now + r)); simpl;
        try reflexivity; try lia.
    + apply (balanced_tick o now_t now_s _ _ (now + durationMs o)); simpl;
        try reflexivity; try lia.
  - (* pause *)
    injection St as <-. unfold pause. destruct (isRunning w) eqn:R; simpl; [| exact B].
    destruct (B1 eq_refl) as (d & D & N & M & Pm & E).
    assert (X : remainingMs (clearTimer w) = remainingMs w)
      by (unfold clearTimer; destruct (timeoutId w); reflexivity).
    unfold balanced. simpl. rewrite X.
    split; [discriminate |]. intros r [= <-]. split; [exact Pm | lia].
  - (* stop *)
    injection St as <-. unfold balanced, recomputes_at. simpl.
    split; [discriminate | intros r E; discriminate E].
  - (* reset *)
    injection St as <-. unfold balanced, recomputes_at. simpl.
    split; [discriminate | intros r E; discriminate E].
  - (* a wake-up fires *)
    destruct (pending id w); [| discriminate]. injection St as <-.
    unfold recomputes_at, fire.
    destruct (falsy (deadline w)) eqn:F.
    + unfold tick. simpl. rewrite F.
      apply (balanced_same_fields o w); try reflexivity. exact B.
    + destruct (deadline w) as [d |] eqn:D; [| discriminate F].
      simpl in F. apply Z.eqb_neq in F.
      destruct (balanced_reseen o w l now d C B D F) as (P & E).
      apply (balanced_tick o now now_s (clearTimeout id w) _ d); try assumption.
      reflexivity.
  - (* visibility *)
    injection St as <-. unfold recomputes_at, handleVisibilityChange.
    destruct (listening w); simpl; [| exact B].
    destruct hidden; simpl; [exact B |].
    destruct (isRunning w) eqn:R; simpl; [| exact B].
    destruct (falsy (deadline w)) eqn:F; simpl.
    + unfold tick. rewrite F. exact B.
    + destruct (deadline w) as [d |] eqn:D; [| discriminate F].
      simpl in F. apply Z.eqb_neq in F.
      destruct (balanced_reseen o w l now d C B D F) as (P & E).
      apply (balanced_tick o now now_s w _ d); try assumption. reflexivity.
  - (* unmounted *)
    injection St as <-. unfold recomputes_at.
    apply (balanced_same_fields o w); try exact B;
      unfold unmounted, clearTimer; destruct (timeoutId w); reflexivity.
Qed.

Lemma balanced_run (o : options) (evs : list (Z * event)) :
  forall w l w' l',
    0 < durationMs o -> start_reads_nonnegative evs ->
    consistent o w -> balanced o w l ->
    run_timed o evs w l = Some (w', l') ->
    balanced o w' l'.
Proof.
  induction evs as [| (wall, e) evs IH]; intros w l w' l' PD PN C B E.
  - simpl in E. injection E as <- <-. exact B.
  - simpl in E. destruct (step o e w) as [w1 |] eqn:St; [| discriminate].
    inversion PN as [| ? ? Pe Pevs]; subst. simpl in Pe.
    apply (IH w1 (account wall e w l) w' l'); try assumption.
    + eapply consistent_step; eassumption.
    + apply (balanced_step o wall e w w1 l); assumption.
Qed.

Lemma balanced_fresh (o : options) (l : ledger) : balanced o (fresh o) l.
Proof. unfold balanced. simpl. split; [discriminate | intros r E; discriminate E]. Qed.

(** Claim C6, amended.  For every paused engine that holds a captured
    remaining time [r], [start()] at clock value [now] sets the deadline
    to [now + r] and clears the captured value.  So over any run of the
    engine, with any number of pauses, wake-ups and resyncs, the time
    spent running up to the deadline does not depend on how long a pause
    lasted: for a paused engine the time run so far plus [r], and for a
    running one the time run so far plus the time from the last
    [start()] to the deadline, is the configured duration plus, for each
    [pause()] of the cycle, the time from the last recomputation of
    [remainingMs] before it (by [start()], a wake-up or a resync) to that
    [pause()], because [pause] captures the value displayed then.  Runs
    start from the engine as built without [autoStart]; with it, the
    run begins with that [start()]. *)
Theorem resume_runs_for_captured_time :
  (forall (o : options) (w : world) (r now now_t now_s : Z),
     paused w -> pausedRemainingMs w = Some r ->
     deadline (start o now now_t now_s w) = Some (now + r) /\
     pausedRemainingMs (start o now now_t now_s w) = None) /\
  (forall (o : options) (evs : list (Z * event)) (w : world) (l : ledger),
     0 < durationMs o -> start_reads_nonnegative evs ->
     run_timed o evs (fresh o) (mkLedger 0 0 0 0) = Some (w, l) ->
     (forall r, pausedRemainingMs w = Some r ->
        ran l + r = durationMs o + lag l) /\
     (isRunning w = true ->
        exists d, deadline w = Some d /\
          ran l + (d - since l) = durationMs o + lag l)).
Proof.
  split.
  - intros o w r now now_t now_s (R & _) P. now apply resume_deadline.
  - intros o evs w l PD PN E.
    destruct (balanced_run o evs (fresh o) (mkLedger 0 0 0 0) w l PD PN
                (consistent_fresh o) (balanced_fresh o _) E) as (B1 & B2).
    split.
    + intros r P. apply (B2 r P).
    + intros R. destruct (B1 R) as (d & D & _ & _ & _ & X). exists d. auto.
Qed.

Lemma resume_runs_for_captured_time_witness :
  (exists w,
     run five_seconds start_wake_pause (fresh five_seconds) = Some w /\
     deadline (start five_seconds (T + 9000) (T + 9000) (T + 9000) w)
       = Some (T + 9000 + 4000)) /\
  (exists w l,
     run_timed five_seconds two_pauses (fresh five_seconds) (mkLedger 0 0 0 0)
       = Some (w, l) /\
     pausedRemainingMs w = Some 3500 /\
     ran l = 2600 /\ lag l = 1100 /\
     ran l + 3500 = durationMs five_seconds + lag l).
Proof.
  destruct resume_runs_for_captured_time as (A & B).
  split.
  - eexists. split; [vm_compute; reflexivity |].
    apply (A five_seconds _ 4000 (T + 9000) (T + 9000) (T + 9000));
      [split; reflexivity | reflexivity].
  - eexists. eexists. split; [vm_compute; reflexivity |].
    split; [reflexivity |]. split; [reflexivity |]. split; [reflexivity |].
    match goal with |- ran ?l + _ = _ =>
      destruct (B five_seconds two_pauses
                  (mkWorld 3500 false true None None (Some 3500)
                     [mkTimer 2 1000] 5 true 0) l) as (B1 & _) end.
    + reflexivity.
    + unfold start_reads_nonnegative, two_pauses.
      repeat constructor; simpl; unfold T; lia.
    + vm_compute. reflexivity.
    + apply B1. reflexivity.
Defined.

(** ** Stop *)

(** What [stop()] does from any state, idle, running, paused or
    completed: it leaves [remainingMs] at the configured duration, both
    flags false, [deadline] and [pausedRemainingMs] absent and no wake-up
    tracked, the wake-up that was tracked being removed from the timer
    table, which leaves the table empty when the tracked wake-up was the
    only one; stopping again changes nothing. *)
Theorem stop_is_total_and_idempotent (o : options) (w : world) :
  remainingMs (stop o w) = durationMs o /\
  isRunning (stop o w) = false /\
  isPaused (stop o w) = false /\
  deadline (stop o w) = None /\
  pausedRemainingMs (stop o w) = None /\
  timeoutId (stop o w) = None /\
  timers (stop o w) = match timeoutId w with
                      | Some id => drop_timer id (timers w)
                      | None => timers w
                      end /\
  (forall id, timeoutId w = Some id -> pending id (stop o w) = false) /\
  (tracked_only w -> timers (stop o w) = []) /\
  stop o (stop o w) = stop o w /\
  reset o w = stop o w.
Proof.
  assert (K : tracked_only w -> timers (stop o w) = [])
    by (intros J; exact (clearTimer_tracked w J)).
  revert K. unfold reset, stop, clearTimer.
  destruct (timeoutId w) as [id |] eqn:E; simpl; rewrite ?E; simpl; intros K;
    repeat split; try discriminate; try exact K.
  intros id' [= <-]. unfold pending, drop_timer. simpl.
  apply not_true_is_false. intros H.
  apply existsb_exists in H. destruct H as (t & I & H).
  apply filter_In in I. destruct I as (_ & I). rewrite H in I. discriminate.
Qed.

(** Claim C7, evaluated where it fails.  After [start()] and one
    visibility resync of the running engine, [stop()] resets the
    displayed time, the flags, the deadline and the captured time as it
    does from any state, but cancels the tracked wake-up only: the
    wake-up [start()] registered, which [scheduleNext] stopped tracking
    without clearing it, is still registered. *)
Theorem stop_leaves_untracked_wakeup :
  exists w,
    run one_second (one_resync ++ [CallStop]) (fresh one_second) = Some w /\
    reachable one_second w /\
    remainingMs w = durationMs one_second /\
    isRunning w = false /\ isPaused w = false /\
    deadline w = None /\ pausedRemainingMs w = None /\
    timeoutId w = None /\
    timers w = [mkTimer 1 1000] /\
    pending 1 w = true.
Proof.
  eexists. split; [vm_compute; reflexivity |].
  split.
  - apply (reachable_from_fresh one_second (one_resync ++ [CallStop]));
      [reflexivity |].
    vm_compute; reflexivity.
  - repeat split.
Qed.

(** ** Monotonicity *)

Lemma ascending_weaken (t t' : Z) (l : list Z) :
  t' <= t -> ascending t l -> ascending t' l.
Proof. destruct l; simpl; [tauto | intros ? (? & ?); split; [lia | assumption]]. Qed.

Lemma wakeup_remaining (o : options) (k : wakeup) (w w' : world) (d : Z) :
  deadline w = Some d -> step o (event_of k) w = Some w' ->
  deadline w' = Some d /\
  (remainingMs w' = remainingMs w \/ remainingMs w' = Z.max 0 (d - clock_of k)).
Proof.
  intros D S. destruct k as [id now now_s | hidden now now_s]; simpl in S.
  - destruct (pending id w); [| discriminate]. injection S as <-.
    unfold fire. split.
    + rewrite tick_keeps_deadline. exact D.
    + apply (tick_remaining_cases o now now_s (clearTimeout id w) d D).
  - injection S as <-. unfold handleVisibilityChange.
    destruct (listening w); [| split; [exact D | now left]].
    destruct (hidden || negb (isRunning w)); [split; [exact D | now left] |].
    split.
    + rewrite tick_keeps_deadline. exact D.
    + now apply tick_remaining_cases.
Qed.

Lemma remaining_after_descending (o : options) (ks : list wakeup) :
  forall (w : world) (d t0 : Z),
    deadline w = Some d ->
    remainingMs w = Z.max 0 (d - t0) ->
    ascending t0 (map clock_of ks) ->
    descending (remainingMs w) (remaining_after o ks w).
Proof.
  induction ks as [| k ks IH]; simpl; intros w d t0 D M A; [exact I |].
  destruct A as (A1 & A2).
  destruct (step o (event_of k) w) as [w' |] eqn:S; simpl; [| exact I].
  destruct (wakeup_remaining o k w w' d D S) as (D' & [E | E]).
  - split; [lia |].
    apply (IH w' d t0 D'); [congruence |].
    now apply (ascending_weaken (clock_of k)).
  - split; [lia |]. now apply (IH w' d (clock_of k) D').
Qed.

Lemma resume_bounded (o : options) (w : world) (p now now_t now_s : Z) :
  reachable o w -> 0 <= durationMs o ->
  pausedRemainingMs w = Some p -> now <= now_t ->
  remainingMs (start o now now_t now_s w) <= p.
Proof.
  intros R PD P L.
  destruct (reachable_consistent o w R) as (_ & H2 & _ & H4).
  destruct (H2 p P) as (_ & NR & M). specialize (H4 PD).
  unfold start. rewrite NR, P.
  match goal with |- remainingMs (tick _ _ _ ?w1) <= _ => set (w1' := w1) end.
  destruct (tick_remaining_cases o now_t now_s w1' (now + p) eq_refl) as [E | E];
    rewrite E; subst w1'; simpl; lia.
Qed.

(** Claim C8.  Take a running engine with deadline [d] whose displayed
    time was computed from it at clock value [t0], and any run of wake-ups and
    visibility changes whose clock reads do not go below [t0] nor
    backwards: the values [remainingMs] takes, from the displayed one on,
    never increase.  And in every reachable state of an engine configured
    with a non-negative duration that holds a captured remaining time
    [p], [start()] leaves [remainingMs] at most [p], as long as its own
    two clock reads do not go backwards. *)
Theorem remainingMs_never_increases :
  (forall (o : options) (ks : list wakeup) (w : world) (d t0 : Z),
     running w ->
     deadline w = Some d ->
     remainingMs w = Z.max 0 (d - t0) ->
     ascending t0 (map clock_of ks) ->
     descending (remainingMs w) (remaining_after o ks w)) /\
  (forall (o : options) (w : world) (p now now_t now_s : Z),
     reachable o w -> 0 <= durationMs o ->
     pausedRemainingMs w = Some p -> now <= now_t ->
     remainingMs (start o now now_t now_s w) <= p).
Proof.
  split.
  - intros o ks w d t0 _. apply remaining_after_descending.
  - apply resume_bounded.
Qed.

Lemma remainingMs_never_increases_witness :
  (remaining_after five_seconds three_recomputations after_start = [4000; 3500; 3000] /\
   descending (remainingMs after_start)
     (remaining_after five_seconds three_recomputations after_start)) /\
  (exists w,
     run five_seconds start_wake_pause (fresh five_seconds) = Some w /\
     remainingMs (start five_seconds (T + 9000) (T + 9000) (T + 9000) w) <= 4000).
Proof.
  destruct remainingMs_never_increases as (M & P).
  split.
  - split; [vm_compute; reflexivity |].
    apply (M five_seconds three_recomputations after_start (T + 5000) T).
    + reflexivity.
    + reflexivity.
    + vm_compute; reflexivity.
    + simpl. unfold T. lia.
  - destruct start_wake_pause_reachable as (w & E & R & C).
    exists w. split; [exact E |].
    apply (P five_seconds w 4000 (T + 9000) (T + 9000) (T + 9000) R);
      [simpl; lia | exact C | lia].
Defined.

(** ** Visibility *)

(** Claim C9.  A [visibilitychange] event reaches [tick], which
    recomputes [remainingMs] from the deadline at once, when the page is
    visible and the engine is running, and only then: with the page
    hidden, or with the engine not running (paused, idle or completed),
    the handler and the event as a whole leave the whole state as it
    was. *)
Theorem visibility_change_frame (o : options) (hidden : bool) (now now_s : Z)
    (w : world) :
  (hidden = true \/ isRunning w = false ->
     handleVisibilityChange o hidden now now_s w = w /\
     step o (VisibilityChange hidden now now_s) w = Some w) /\
  (hidden = false -> isRunning w = true ->
     handleVisibilityChange o hidden now now_s w = tick o now now_s w /\
     forall d, deadline w = Some d -> d <> 0 ->
       remainingMs (handleVisibilityChange o hidden now now_s w) = Z.max 0 (d - now)).
Proof.
  unfold step, handleVisibilityChange. split.
  - intros [-> | R].
    + simpl. destruct (listening w); split; reflexivity.
    + rewrite R. rewrite orb_true_r. destruct (listening w); split; reflexivity.
  - intros -> R. rewrite R. simpl. split; [reflexivity |].
    intros d D N. now apply tick_remainingMs.
Qed.

Lemma visibility_change_frame_witness :
  handleVisibilityChange five_seconds true (T + 1500) (T + 1500) after_start
    = after_start /\
  remainingMs
    (handleVisibilityChange five_seconds false (T + 1500) (T + 1500) after_start)
    = 3500.
Proof.
  split.
  - apply (visibility_change_frame five_seconds true (T + 1500) (T + 1500) after_start).
    left. reflexivity.
  - destruct (visibility_change_frame five_seconds false (T + 1500) (T + 1500)
                after_start) as (_ & V).
    destruct (V eq_refl eq_refl) as (_ & V').
    rewrite (V' (T + 5000) eq_refl ltac:(discriminate)). reflexivity.
Defined.

(** ** Start after completion *)

(** Claim C10.  In a reachable completed state (not running, not paused,
    [remainingMs] at 0) no captured remaining time is left, so [start()],
    with a positive configured duration and a clock that does not run
    backwards or use up the whole duration inside the call, sets the
    deadline to [now + durationMs], leaves [isRunning] true and
    [isPaused] false, displays the time left to that deadline (the full
    duration when the clock has not moved) and registers a wake-up. *)
Theorem start_after_completion_is_fresh (o : options) (w : world)
    (now now_t now_s : Z) :
  reachable o w -> completed w ->
  0 < durationMs o -> 0 <= now -> now <= now_t < now + durationMs o ->
  let w' := start o now now_t now_s w in
  pausedRemainingMs w = None /\
  deadline w' = Some (now + durationMs o) /\
  isRunning w' = true /\
  isPaused w' = false /\
  pausedRemainingMs w' = None /\
  remainingMs w' = durationMs o - (now_t - now) /\
  timeoutId w' = Some (next_id w) /\
  pending (next_id w) w' = true.
Proof.
  intros R (NR & NP & _) PD PN PT w'.
  destruct (reachable_consistent o w R) as (_ & H2 & _).
  assert (P : pausedRemainingMs w = None).
  { destruct (pausedRemainingMs w) as [p |] eqn:E; [| reflexivity].
    destruct (H2 p eq_refl) as (C & _). congruence. }
  split; [exact P |].
  subst w'. unfold start. rewrite NR, P.
  rewrite (tick_before_deadline o now_t now_s _ (now + durationMs o))
    by (simpl; try reflexivity; lia).
  unfold scheduleNext. simpl.
  destruct (now + durationMs o =? 0) eqn:E; [apply Z.eqb_eq in E; lia |].
  simpl. repeat split; try lia.
  unfold pending. simpl. rewrite existsb_app. simpl.
  unfold has_id. simpl. rewrite Nat.eqb_refl. apply orb_true_iff. right. reflexivity.
Qed.

Lemma start_after_completion_is_fresh_witness :
  exists w,
    run one_second run_to_deadline (fresh one_second) = Some w /\
    deadline (start one_second (T + 2000) (T + 2000) (T + 2000) w)
      = Some (T + 2000 + durationMs one_second) /\
    isRunning (start one_second (T + 2000) (T + 2000) (T + 2000) w) = true /\
    isPaused (start one_second (T + 2000) (T + 2000) (T + 2000) w) = false.
Proof.
  destruct run_to_deadline_completes as (w & E & R & C).
  exists w. split; [exact E |].
  assert (Q : 0 < durationMs one_second) by reflexivity.
  assert (Q0 : 0 <= T + 2000) by (unfold T; lia).
  assert (Q1 : T + 2000 <= T + 2000 < T + 2000 + durationMs one_second)
    by (simpl; lia).
  pose proof (start_after_completion_is_fresh one_second w
                (T + 2000) (T + 2000) (T + 2000) R C Q Q0 Q1)
    as (_ & D & I & P & _).
  repeat split; assumption.
Defined.

(** * Further properties of the engine *)

(** ** Uninterrupted runs *)

Lemma never_shown_wakeups (ts : list Z) :
  forall id, never_shown (wakeups_from id ts) = true.
Proof. induction ts as [| t ts IH]; intros id; simpl; [reflexivity | apply IH]. Qed.


Lemma starts_wakeups (ts : list Z) :
  forall id, starts (wakeups_from id ts) = 0%nat.
Proof. induction ts as [| t ts IH]; intros id; simpl; [reflexivity | apply IH]. Qed.

Lemma uninterrupted_state (o : options) (t0 : Z) (ts : list Z) :
  0 < durationMs o -> 0 <= t0 ->
  Forall (fun t => t < t0 + durationMs o) ts ->
  exists w,
    run o (uninterrupted t0 ts) (fresh o) = Some w /\
    ticking (t0 + durationMs o) (1 + length ts) w /\
    remainingMs w = durationMs o - (last ts t0 - t0) /\
    tracked_only w /\ completions w = 0%nat.
Proof.
  intros PD PT F.
  destruct (start_fresh_ticking o t0 PD PT) as (K & M).
  destruct (run_wakeups o (t0 + durationMs o) ts 1 _ t0 K ltac:(lia) M F)
    as (w & E & K' & M').
  assert (E' : run o (uninterrupted t0 ts) (fresh o) = Some w) by exact E.
  exists w. split; [exact E' |]. split; [exact K' |]. split; [lia |].
  assert (Q : never_shown (uninterrupted t0 ts) = true)
    by (simpl; apply never_shown_wakeups).
  destruct (tracked_only_run o _ (fresh o) w Q (or_introl eq_refl) E') as (J & C).
  split; [exact J |].
  destruct K' as (R & _). unfold running_count in C. rewrite R in C.
  simpl in C. rewrite starts_wakeups in C. lia.
Qed.



Lemma tracked_timer (d : Z) (id : nat) (w : world) :
  ticking d id w -> tracked_only w ->
  exists t, timers w = [t] /\ tm_id t = id.
Proof.
  intros (_ & _ & I & P & _) [E | (_ & t & E & I')].
  - unfold pending in P. rewrite E in P. discriminate.
  - exists t. split; [exact E | congruence].
Qed.

(** Extra X2.  An uninterrupted countdown, [start()] on an idle engine,
    wake-ups before the deadline and one at or after it, ends completed:
    [remainingMs] is 0, both flags are false, the callback, if supplied,
    has run exactly once, and no wake-up is left registered or tracked. *)
Theorem uninterrupted_countdown_completes_once (o : options) (t0 : Z)
    (ts : list Z) (t_end : Z) :
  0 < durationMs o -> 0 <= t0 ->
  Forall (fun t => t < t0 + durationMs o) ts ->
  t0 + durationMs o <= t_end ->
  exists w,
    run o (countdown t0 ts t_end) (fresh o) = Some w /\
    completed w /\
    completions w = (if onComplete o then 1%nat else 0%nat) /\
    timers w = [] /\ timeoutId w = None.
Proof.
  intros PD PT F L.
  destruct (uninterrupted_state o t0 ts PD PT F) as (w1 & E & K & _ & J & C).
  destruct (tracked_timer _ _ w1 K J) as (t & Et & It).
  destruct K as (_ & D & I & P & _).
  exists (fire o (1 + length ts) t_end t_end w1). split.
  - unfold countdown. unfold uninterrupted in E. simpl in E. simpl.
    rewrite run_app, E. simpl. simpl in P. rewrite P. reflexivity.
  - unfold fire, tick. simpl. rewrite D. simpl.
    destruct (t0 + durationMs o =? 0) eqn:Z0; [apply Z.eqb_eq in Z0; lia |].
    replace (Z.max 0 (t0 + durationMs o - t_end)) with 0 by lia. simpl.
    unfold complete, call_onComplete, clearTimer. simpl. rewrite I. simpl.
    rewrite Et. unfold drop_timer, has_id. simpl. simpl in It. rewrite It.
    rewrite Nat.eqb_refl. simpl.
    destruct (onComplete o); simpl; rewrite C; repeat split.
Qed.

Lemma uninterrupted_countdown_completes_once_witness :
  exists w,
    run five_seconds (countdown T [T + 1000; T + 3700] (T + 5002))
      (fresh five_seconds) = Some w /\
    completed w /\
    completions w = (if onComplete five_seconds then 1%nat else 0%nat) /\
    timers w = [] /\ timeoutId w = None.
Proof.
  apply (uninterrupted_countdown_completes_once five_seconds T
           [T + 1000; T + 3700] (T + 5002)).
  - reflexivity.
  - unfold T. lia.
  - repeat constructor.
  - simpl. lia.
Defined.

(** ** Scheduling *)

(** Extra X3.  Before the deadline [scheduleNext] registers exactly one
    wake-up, between 1 and 1000 ms ahead, due no later than the deadline
    and a whole number of seconds before it: wake-ups are aligned to the
    second boundaries of the countdown, not to the moment of the call.
    At or after the deadline the delay is a full second. *)
Theorem scheduleNext_aligns_to_seconds (w : world) (d now : Z) :
  deadline w = Some d -> d <> 0 ->
  exists delay,
    timers (scheduleNext now w) = timers w ++ [mkTimer (next_id w) delay] /\
    timeoutId (scheduleNext now w) = Some (next_id w) /\
    1 <= delay <= 1000 /\
    (now < d -> now + delay <= d /\ (d - (now + delay)) mod 1000 = 0) /\
    (d <= now -> delay = 1000).
Proof.
  intros D N. unfold scheduleNext. rewrite D. simpl.
  pose proof N as N'. apply Z.eqb_neq in N'. rewrite N'. simpl.
  eexists. split; [reflexivity |]. split; [reflexivity |].
  set (left := Z.max 0 (d - now)).
  assert (P : 0 <= left) by (subst left; lia).
  split; [apply nextTickDelay_range; exact P |].
  rewrite (nextTickDelay_mod left P). split.
  - intros L. assert (E : left = d - now) by (subst left; lia).
    pose proof (Z.mod_pos_bound left 1000 ltac:(lia)) as B.
    pose proof (Z.div_mod left 1000 ltac:(lia)) as Q.
    destruct (left mod 1000 =? 0) eqn:R.
    + apply Z.eqb_eq in R. split; [lia |].
      replace (d - (now + 1000)) with ((left / 1000 - 1) * 1000) by lia.
      apply Z.mod_mul. lia.
    + split; [lia |].
      replace (d - (now + left mod 1000)) with ((left / 1000) * 1000) by lia.
      apply Z.mod_mul. lia.
  - intros L. replace left with 0 by (subst left; lia). reflexivity.
Qed.

Lemma scheduleNext_aligns_to_seconds_witness :
  exists delay,
    timers (scheduleNext (T + 1500) after_start)
      = timers after_start ++ [mkTimer (next_id after_start) delay] /\
    timeoutId (scheduleNext (T + 1500) after_start) = Some (next_id after_start) /\
    1 <= delay <= 1000 /\
    (T + 1500 < T + 5000 ->
       T + 1500 + delay <= T + 5000 /\
       (T + 5000 - (T + 1500 + delay)) mod 1000 = 0) /\
    (T + 5000 <= T + 1500 -> delay = 1000).
Proof.
  apply (scheduleNext_aligns_to_seconds after_start (T + 5000) (T + 1500)).
  - reflexivity.
  - discriminate.
Defined.

(** ** Pause *)

(** Extra X4.  [pause()] does nothing unless the engine is running.  On
    a running engine it captures the remaining time as displayed,
    whatever the clock says, clears the deadline, cancels the tracked
    wake-up, sets the flags to paused and does not invoke the callback.
    Pausing twice is pausing once. *)
Theorem pause_captures_displayed_time (w : world) :
  (isRunning w = false -> pause w = w) /\
  (isRunning w = true ->
     pausedRemainingMs (pause w) = Some (remainingMs w) /\
     remainingMs (pause w) = remainingMs w /\
     isRunning (pause w) = false /\ isPaused (pause w) = true /\
     deadline (pause w) = None /\ timeoutId (pause w) = None /\
     timers (pause w) = match timeoutId w with
                        | Some id => drop_timer id (timers w)
                        | None => timers w
                        end /\
     (tracked_only w -> timers (pause w) = []) /\
     completions (pause w) = completions w) /\
  pause (pause w) = pause w.
Proof.
  split; [| split].
  - intros R. unfold pause. now rewrite R.
  - intros R.
    assert (K : tracked_only w -> timers (pause w) = []).
    { intros J. unfold pause. rewrite R. simpl. exact (clearTimer_tracked w J). }
    revert K. unfold pause, clearTimer. rewrite R. simpl.
    destruct (timeoutId w) eqn:I; simpl; rewrite ?I; intros K;
      repeat split; try exact K; try exact I.
  - unfold pause at 1. destruct (isRunning (pause w)) eqn:R; [| reflexivity].
    exfalso. unfold pause in R. destruct (isRunning w) eqn:R'; simpl in R; congruence.
Qed.

(** ** Wake-ups that fire after the countdown was left *)

Lemma no_deadline_wakeup (o : options) (k : wakeup) (w w' : world) :
  deadline w = None -> step o (event_of k) w = Some w' ->
  deadline w' = None /\
  remainingMs w' = remainingMs w /\
  isRunning w' = isRunning w /\ isPaused w' = isPaused w /\
  pausedRemainingMs w' = pausedRemainingMs w /\
  timeoutId w' = timeoutId w /\
  completions w' = completions w.
Proof.
  intros D S. destruct k as [id now now_s | hidden now now_s]; simpl in S.
  - destruct (pending id w); [| discriminate]. injection S as <-.
    unfold fire, tick. simpl. rewrite D. simpl. repeat split; exact D.
  - injection S as <-. unfold handleVisibilityChange, tick. rewrite D. simpl.
    destruct (listening w); destruct (hidden || negb (isRunning w));
      repeat split; exact D.
Qed.

Lemma no_deadline_wakeups (o : options) (ks : list wakeup) :
  forall w w',
    deadline w = None -> run o (map event_of ks) w = Some w' ->
    remainingMs w' = remainingMs w /\
    isRunning w' = isRunning w /\ isPaused w' = isPaused w /\
    deadline w' = None /\
    pausedRemainingMs w' = pausedRemainingMs w /\
    timeoutId w' = timeoutId w /\
    completions w' = completions w.
Proof.
  induction ks as [| k ks IH]; simpl; intros w w' D E.
  - injection E as <-. repeat split. exact D.
  - destruct (step o (event_of k) w) as [w1 |] eqn:S; [| discriminate].
    destruct (no_deadline_wakeup o k w w1 D S) as (D1 & A1 & A2 & A3 & A4 & A5 & A6).
    destruct (IH w1 w' D1 E) as (B1 & B2 & B3 & B4 & B5 & B6 & B7).
    repeat split; congruence.
Qed.

(** Extra X5.  After [stop()], from any state, and after [pause()] of a
    running engine, wake-ups that still fire and visibility changes, in
    any number and order and at any clock values, change nothing the
    engine shows or holds: the displayed time, the flags, the absent
    deadline, the captured time and the number of callback invocations
    all stay as [stop()] or [pause()] left them. *)
Theorem stale_wakeups_are_inert (o : options) (w v w' : world) (ks : list wakeup) :
  v = stop o w \/ (isRunning w = true /\ v = pause w) ->
  run o (map event_of ks) v = Some w' ->
  remainingMs w' = remainingMs v /\
  isRunning w' = false /\ isPaused w' = isPaused v /\
  deadline w' = None /\
  pausedRemainingMs w' = pausedRemainingMs v /\
  timeoutId w' = None /\
  completions w' = completions v.
Proof.
  intros V E.
  assert (D : deadline v = None /\ isRunning v = false /\ timeoutId v = None).
  { destruct V as [-> | (R & ->)].
    - unfold stop, clearTimer.
      destruct (timeoutId w) eqn:I; simpl; rewrite ?I; repeat split.
    - unfold pause, clearTimer. rewrite R.
      destruct (timeoutId w) eqn:I; simpl; rewrite ?I; repeat split. }
  destruct D as (D & R & I).
  destruct (no_deadline_wakeups o ks v w' D E) as (A1 & A2 & A3 & A4 & A5 & A6 & A7).
  repeat split; congruence.
Qed.

Lemma one_resync_run :
  { v | run one_second one_resync (fresh one_second) = Some v }.
Proof. eexists. vm_compute. reflexivity. Defined.

Lemma stale_wakeups_are_inert_witness :
  exists v w',
    run one_second one_resync (fresh one_second) = Some v /\
    run one_second
      (map event_of [Fired 1 (T + 1000) (T + 1000); Resync false (T + 1200) (T + 1200)])
      (stop one_second v) = Some w' /\
    remainingMs w' = remainingMs (stop one_second v) /\
    completions w' = completions (stop one_second v).
Proof.
  destruct one_resync_run as (v & E).
  exists v. eexists. split; [exact E |].
  assert (E' : run one_second
                 (map event_of [Fired 1 (T + 1000) (T + 1000);
                                Resync false (T + 1200) (T + 1200)])
                 (stop one_second v)
               = Some (clearTimeout 1 (stop one_second v))).
  { injection E as <-. vm_compute. reflexivity. }
  split; [exact E' |].
  destruct (stale_wakeups_are_inert one_second v (stop one_second v) _ _
              (or_introl eq_refl) E') as (A & _ & _ & _ & _ & _ & C).
  split; assumption.
Defined.

(** ** Unmounting *)

(** Extra X6.  The unmount hook cancels the tracked wake-up and detaches
    the visibility listener: afterwards a visibility change does nothing,
    and if the tracked wake-up was the only one registered no wake-up can
    fire any more.  The flags, the deadline and the displayed time stay
    as they were. *)
Theorem unmounted_detaches (o : options) (w : world) :
  (forall hidden now now_s,
     step o (VisibilityChange hidden now now_s) (unmounted w) = Some (unmounted w)) /\
  timeoutId (unmounted w) = None /\
  (forall id, timeoutId w = Some id -> pending id (unmounted w) = false) /\
  (tracked_only w ->
     forall id now now_s, step o (TimerFires id now now_s) (unmounted w) = None) /\
  remainingMs (unmounted w) = remainingMs w /\
  isRunning (unmounted w) = isRunning w /\
  isPaused (unmounted w) = isPaused w /\
  deadline (unmounted w) = deadline w /\
  unmounted (unmounted w) = unmounted w.
Proof.
  split; [reflexivity |].
  assert (K : tracked_only w -> timers (unmounted w) = [])
    by (intros J; exact (clearTimer_tracked w J)).
  split; [| split; [| split]].
  - unfold unmounted, clearTimer. destruct (timeoutId w) eqn:E; simpl; auto.
  - intros id E. unfold unmounted, clearTimer, pending. rewrite E. simpl.
    apply not_true_is_false. intros H.
    apply existsb_exists in H. destruct H as (t & I & H).
    apply filter_In in I. destruct I as (_ & I). rewrite H in I. discriminate.
  - intros J id now now_s. simpl. unfold pending. rewrite (K J). reflexivity.
  - unfold unmounted, clearTimer.
    destruct (timeoutId w) eqn:E; simpl; rewrite ?E; repeat split.
Qed.

(** ** Auto-start *)

(** Extra X7.  Built with [autoStart] and a positive duration, the engine
    is returned already running: its deadline is the clock value [start]
    read plus the duration, it displays the time left to it, one wake-up
    is registered and tracked, and the callback has not run. *)
Theorem autoStart_starts_countdown (d : Z) (cb : bool) (now now_t now_s : Z) :
  0 < d -> 0 <= now -> now <= now_t < now + d ->
  exists w delay,
    useRobustTimer (mkOptions d cb true) now now_t now_s = Returned w /\
    isRunning w = true /\ isPaused w = false /\
    deadline w = Some (now + d) /\ pausedRemainingMs w = None /\
    remainingMs w = d - (now_t - now) /\
    timers w = [mkTimer 1 delay] /\ timeoutId w = Some 1%nat /\
    1 <= delay <= 1000 /\
    completions w = 0%nat.
Proof.
  intros PD PN PT. unfold useRobustTimer, start. simpl.
  rewrite (tick_before_deadline _ now_t now_s _ (now + d))
    by (simpl; try reflexivity; lia).
  unfold scheduleNext. simpl.
  destruct (now + d =? 0) eqn:E; [apply Z.eqb_eq in E; lia |]. simpl.
  eexists. eexists. split; [reflexivity |]. simpl.
  repeat split; try lia; apply nextTickDelay_range; lia.
Qed.

Lemma autoStart_starts_countdown_witness :
  exists w delay,
    useRobustTimer (mkOptions 5000 true true) T T T = Returned w /\
    isRunning w = true /\ isPaused w = false /\
    deadline w = Some (T + 5000) /\ pausedRemainingMs w = None /\
    remainingMs w = 5000 - (T - T) /\
    timers w = [mkTimer 1 delay] /\ timeoutId w = Some 1%nat /\
    1 <= delay <= 1000 /\
    completions w = 0%nat.
Proof.
  apply (autoStart_starts_countdown 5000 true T T T); unfold T; lia.
Defined.

(** ** Stop, then start *)

(** Extra X8.  [start()] right after [stop()] begins a countdown of the
    full configured duration whatever came before, a captured remaining
    time included: the deadline is the clock value plus [durationMs],
    the engine is running, and the wake-up it registers is the one it
    tracks. *)
Theorem stop_then_start_runs_full_duration (o : options) (w : world)
    (now now_t now_s : Z) :
  0 < durationMs o -> 0 <= now -> now <= now_t < now + durationMs o ->
  let w' := start o now now_t now_s (stop o w) in
  deadline w' = Some (now + durationMs o) /\
  remainingMs w' = durationMs o - (now_t - now) /\
  isRunning w' = true /\ isPaused w' = false /\
  pausedRemainingMs w' = None /\
  timeoutId w' = Some (next_id w) /\
  pending (next_id w) w' = true /\
  completions w' = completions w.
Proof.
  intros PD PN PT w'. subst w'. unfold start. simpl.
  rewrite (tick_before_deadline o now_t now_s _ (now + durationMs o))
    by (simpl; try reflexivity; lia).
  unfold scheduleNext. simpl.
  destruct (now + durationMs o =? 0) eqn:E; [apply Z.eqb_eq in E; lia |]. simpl.
  assert (N : next_id (clearTimer w) = next_id w)
    by (unfold clearTimer; destruct (timeoutId w); reflexivity).
  assert (C : completions (clearTimer w) = completions w)
    by (unfold clearTimer; destruct (timeoutId w); reflexivity).
  rewrite N, C. repeat split; try lia.
  unfold pending. simpl. rewrite existsb_app. simpl.
  unfold has_id. simpl. rewrite Nat.eqb_refl. apply orb_true_iff. right. reflexivity.
Qed.

Lemma stop_then_start_runs_full_duration_witness :
  exists w,
    run five_seconds start_wake_pause (fresh five_seconds) = Some w /\
    pausedRemainingMs w = Some 4000 /\
    deadline (start five_seconds (T + 9000) (T + 9000) (T + 9000)
                (stop five_seconds w))
      = Some (T + 9000 + durationMs five_seconds).
Proof.
  destruct start_wake_pause_reachable as (w & E & _ & P).
  exists w. split; [exact E |]. split; [exact P |].
  apply (stop_then_start_runs_full_duration five_seconds w
           (T + 9000) (T + 9000) (T + 9000)).
  - reflexivity.
  - unfold T. lia.
  - simpl. lia.
Defined.

(** ** What the flags say about the internal state *)

Lemma tick_flags (o : options) (now now_s : Z) (w : world) :
  (isPaused (tick o now now_s w) = isPaused w /\
   pausedRemainingMs (tick o now now_s w) = pausedRemainingMs w) \/
  isPaused (tick o now now_s w) = false.
Proof.
  unfold tick. destruct (falsy (deadline w)) eqn:F; [left; split; reflexivity |].
  destruct (deadline w) as [d |] eqn:D; [| left; split; reflexivity].
  destruct (Z.max 0 (d - now) <=? 0).
  - right. unfold complete, call_onComplete. destruct (onComplete o); reflexivity.
  - left. unfold scheduleNext. simpl. rewrite D, F. split; reflexivity.
Qed.

Lemma paused_has_capture_tick (o : options) (now now_s : Z) (w : world) :
  paused_has_capture w -> paused_has_capture (tick o now now_s w).
Proof.
  intros H. unfold paused_has_capture.
  destruct (tick_flags o now now_s w) as [(A & B) | A]; rewrite A.
  - rewrite B. exact H.
  - discriminate.
Qed.

Lemma paused_has_capture_step (o : options) (e : event) (w w' : world) :
  paused_has_capture w -> step o e w = Some w' -> paused_has_capture w'.
Proof.
  intros H S. destruct e; simpl in S.
  - injection S as <-. unfold start. destruct (isRunning w); [exact H |].
    apply paused_has_capture_tick. unfold paused_has_capture. simpl. discriminate.
  - injection S as <-. unfold pause. destruct (isRunning w); simpl; [| exact H].
    unfold paused_has_capture. simpl. discriminate.
  - injection S as <-. unfold paused_has_capture. simpl. discriminate.
  - injection S as <-. unfold paused_has_capture. simpl. discriminate.
  - destruct (pending id w); [| discriminate]. injection S as <-.
    unfold fire. apply paused_has_capture_tick. exact H.
  - injection S as <-. unfold handleVisibilityChange.
    destruct (listening w); [| exact H].
    destruct (hidden || negb (isRunning w)); [exact H |].
    apply paused_has_capture_tick. exact H.
  - injection S as <-. unfold unmounted, clearTimer, paused_has_capture in *.
    destruct (timeoutId w); simpl; exact H.
Qed.

Lemma reachable_paused_has_capture (o : options) (w : world) :
  reachable o w -> paused_has_capture w.
Proof.
  induction 1 as [now now_t now_s w B | w e w' _ IH S].
  - unfold useRobustTimer in B. injection B as <-.
    destruct (autoStart o).
    + unfold start. simpl. apply paused_has_capture_tick.
      unfold paused_has_capture. simpl. discriminate.
    + unfold paused_has_capture. simpl. discriminate.
  - eapply paused_has_capture_step; eassumption.
Qed.

(** Extra X9.  In every state the engine can reach, whatever the events
    and the clock: [isRunning] and [isPaused] are never both true;
    [isPaused] is true exactly when a remaining time is captured, and
    that captured time is the displayed one; a running engine has a
    deadline and a paused one has none. *)
Theorem flags_agree_with_internal_state (o : options) (w : world) :
  reachable o w ->
  (isRunning w = true -> isPaused w = false) /\
  (isPaused w = true <-> pausedRemainingMs w <> None) /\
  (forall p, pausedRemainingMs w = Some p -> remainingMs w = p) /\
  (isRunning w = true -> deadline w <> None) /\
  (isPaused w = true -> deadline w = None /\ isRunning w = false).
Proof.
  intros R.
  destruct (reachable_consistent o w R) as (H1 & H2 & H3 & _).
  pose proof (reachable_paused_has_capture o w R) as H5.
  assert (Q : forall p, pausedRemainingMs w = Some p ->
                        isPaused w = true /\ isRunning w = false /\ remainingMs w = p)
    by exact H2.
  split; [intros X; apply (H3 X) |].
  split.
  { split; [exact H5 |]. intros N.
    destruct (pausedRemainingMs w) as [p |] eqn:E; [| congruence].
    apply (Q p eq_refl). }
  split; [intros p E; apply (Q p E) |].
  split; [intros X; apply (H3 X) |].
  intros X. specialize (H5 X).
  destruct (pausedRemainingMs w) as [p |] eqn:E; [| congruence].
  destruct (Q p eq_refl) as (_ & NR & _). split; [| exact NR].
  destruct (deadline w) eqn:D; [| reflexivity].
  specialize (H1 ltac:(discriminate)). congruence.
Qed.

Lemma flags_agree_with_internal_state_witness :
  exists w,
    run five_seconds start_wake_pause (fresh five_seconds) = Some w /\
    (isPaused w = true <-> pausedRemainingMs w <> None) /\
    (isPaused w = true -> deadline w = None /\ isRunning w = false).
Proof.
  destruct start_wake_pause_reachable as (w & E & R & _).
  exists w. split; [exact E |].
  destruct (flags_agree_with_internal_state five_seconds w R) as (_ & A & _ & _ & B).
  split; assumption.
Defined.

(** Extra X10.  With a configured duration that is not negative, the
    displayed remaining time and the captured one are never negative, in
    any state the engine can reach. *)
Theorem remainingMs_is_never_negative (o : options) (w : world) :
  reachable o w -> 0 <= durationMs o ->
  0 <= remainingMs w /\
  (forall p, pausedRemainingMs w = Some p -> 0 <= p).
Proof.
  intros R PD.
  destruct (reachable_consistent o w R) as (_ & H2 & _ & H4).
  split; [apply H4, PD |].
  intros p E. destruct (H2 p E) as (_ & _ & <-). apply H4, PD.
Qed.

Lemma remainingMs_is_never_negative_witness :
  exists w,
    run five_seconds start_wake_pause (fresh five_seconds) = Some w /\
    0 <= remainingMs w /\
    (forall p, pausedRemainingMs w = Some p -> 0 <= p).
Proof.
  destruct start_wake_pause_reachable as (w & E & R & _).
  exists w. split; [exact E |].
  apply (remainingMs_is_never_negative five_seconds w R). simpl. lia.
Defined.

(** ** When the callback runs *)

Lemma tick_completions (o : options) (now now_s : Z) (w : world) :
  completions (tick o now now_s w) = completions w \/
  (completions (tick o now now_s w) = S (completions w) /\
   onComplete o = true /\
   completed (tick o now now_s w) /\
   exists d, deadline w = Some d /\ d <= now).
Proof.
  unfold tick. destruct (falsy (deadline w)) eqn:F; [left; reflexivity |].
  destruct (deadline w) as [d |] eqn:D; [| left; reflexivity].
  destruct (Z.max 0 (d - now) <=? 0) eqn:E.
  - apply Z.leb_le in E.
    unfold complete, call_onComplete, clearTimer. simpl.
    destruct (onComplete o) eqn:C.
    + right. destruct (timeoutId w); simpl;
        (split; [reflexivity |]; split; [reflexivity |];
         split; [repeat split |]; exists d; split; [reflexivity | lia]).
    + left. destruct (timeoutId w); reflexivity.
  - left. unfold scheduleNext. simpl. rewrite D, F. reflexivity.
Qed.

(** Extra X11.  No event invokes the callback more than once, and an
    event that does invoke it went through [tick] at a clock value at or
    past the deadline and left the engine completed.  [pause()],
    [stop()], [reset()], unmounting and a visibility change of a hidden
    page never invoke it, and neither does anything when no callback was
    supplied. *)
Theorem callback_only_at_deadline (o : options) (e : event) (w w' : world) :
  step o e w = Some w' ->
  (completions w' = completions w \/
   (completions w' = S (completions w) /\
    onComplete o = true /\
    completed w' /\
    exists d now, deadline w' = Some d /\ clock_read e = Some now /\ d <= now)) /\
  (clock_read e = None -> completions w' = completions w) /\
  (onComplete o = false -> completions w' = completions w).
Proof.
  intros St.
  assert (K : forall now now_s v,
             completions (tick o now now_s v) = completions v \/
             (completions (tick o now now_s v) = S (completions v) /\
              onComplete o = true /\ completed (tick o now now_s v) /\
              exists d, deadline (tick o now now_s v) = Some d /\ d <= now)).
  { intros now now_s v.
    destruct (tick_completions o now now_s v) as [A | (A & B & C & d & D & L)];
      [left; exact A | right].
    repeat split; try assumption; try apply C.
    exists d. rewrite tick_keeps_deadline. split; assumption. }
  assert (M : completions w' = completions w \/
              (completions w' = S (completions w) /\ onComplete o = true /\
               completed w' /\
               exists d now, deadline w' = Some d /\ clock_read e = Some now /\ d <= now)).
  { destruct e; simpl in St.
    - injection St as <-. unfold start. destruct (isRunning w); [left; reflexivity |].
      match goal with |- context [tick o ?a ?b ?v] =>
        destruct (K a b v) as [A | (A & B & C & d & D & L)] end.
      + left. exact A.
      + right. repeat split; try assumption; try apply C.
        exists d, now_t. repeat split; assumption.
    - injection St as <-. left. unfold pause, clearTimer.
      destruct (isRunning w); [| reflexivity]. destruct (timeoutId w); reflexivity.
    - injection St as <-. left. unfold stop, clearTimer.
      destruct (timeoutId w); reflexivity.
    - injection St as <-. left. unfold reset, stop, clearTimer.
      destruct (timeoutId w); reflexivity.
    - destruct (pending id w); [| discriminate]. injection St as <-. unfold fire.
      destruct (K now now_s (clearTimeout id w)) as [A | (A & B & C & d & D & L)].
      + left. exact A.
      + right. repeat split; try assumption; try apply C.
        exists d, now. repeat split; assumption.
    - injection St as <-. unfold handleVisibilityChange.
      destruct (listening w); [| left; reflexivity].
      destruct (hidden || negb (isRunning w)); [left; reflexivity |].
      destruct (K now now_s w) as [A | (A & B & C & d & D & L)].
      + left. exact A.
      + right. repeat split; try assumption; try apply C.
        exists d, now. repeat split; assumption.
    - injection St as <-. left. unfold unmounted, clearTimer.
      destruct (timeoutId w); reflexivity. }
  split; [exact M |]. split.
  - intros N. destruct M as [A | (_ & _ & _ & d & now & _ & X & _)];
      [exact A | congruence].
  - intros N. destruct M as [A | (_ & X & _)]; [exact A | congruence].
Qed.

Lemma callback_only_at_deadline_witness :
  exists w w',
    run one_second [start_at T] (fresh one_second) = Some w /\
    step one_second (fires_at 1 (T + 1000)) w = Some w' /\
    completions w' = S (completions w) /\
    completed w'.
Proof.
  eexists. eexists. split; [vm_compute; reflexivity |].
  match goal with |- step ?o ?e ?w = Some ?w' /\ _ =>
    assert (St : step o e w = Some (fire o 1 (T + 1000) (T + 1000) w))
      by reflexivity end.
  split; [exact St |].
  destruct (callback_only_at_deadline _ _ _ _ St) as ([A | (A & _ & C & _)] & _).
  - vm_compute in A. discriminate A.
  - split; assumption.
Defined.

(** ** Runs in which the page never becomes visible *)

Lemma built_tracked_only (o : options) (now now_t now_s : Z) (w : world) :
  useRobustTimer o now now_t now_s = Returned w ->
  tracked_only w /\
  (completions w + running_count w <= if autoStart o then 1 else 0)%nat.
Proof.
  unfold useRobustTimer. intros [= <-]. destruct (autoStart o).
  - unfold start. simpl.
    match goal with |- context [tick o ?a ?b ?v] =>
      destruct (tick_tracked o a b v eq_refl eq_refl) as (J & C) end.
    split; [exact J | exact C].
  - split; [left; reflexivity | unfold running_count; simpl; lia].
Qed.

(** Extra X12.  As long as no visibility change finds the page visible,
    whatever else happens to the engine (calls of its interface, wake-ups
    firing, the page being hidden, unmounting), at most one wake-up is
    registered, it is the tracked one, and the callback has run at most
    once for each call of [start()], the one of [autoStart] included. *)
Theorem single_wakeup_without_resync (o : options) (now now_t now_s : Z)
    (evs : list event) (w0 w : world) :
  useRobustTimer o now now_t now_s = Returned w0 ->
  never_shown evs = true ->
  run o evs w0 = Some w ->
  (length (timers w) <= 1)%nat /\
  (forall t, In t (timers w) -> timeoutId w = Some (tm_id t)) /\
  (completions w <= starts evs + if autoStart o then 1 else 0)%nat.
Proof.
  intros B Q E.
  destruct (built_tracked_only o now now_t now_s w0 B) as (J0 & C0).
  destruct (tracked_only_run o evs w0 w Q J0 E) as (J & C).
  split; [| split].
  - destruct J as [-> | (_ & t & -> & _)]; simpl; lia.
  - intros t I. destruct J as [X | (_ & t' & X & Y)]; rewrite X in I.
    + destruct I.
    + destruct I as [<- | []]. exact Y.
  - unfold running_count in *.
    destruct (autoStart o); destruct (isRunning w); destruct (isRunning w0); lia.
Qed.

Lemma single_wakeup_without_resync_witness :
  exists w,
    run one_second [start_at T; hidden_at (T + 100); fires_at 1 (T + 1000)]
      (fresh one_second) = Some w /\
    (length (timers w) <= 1)%nat /\
    (completions w <= 1)%nat.
Proof.
  eexists. split; [vm_compute; reflexivity |].
  match goal with |- (length (timers ?w) <= _)%nat /\ _ =>
    destruct (single_wakeup_without_resync one_second 0 0 0
                [start_at T; hidden_at (T + 100); fires_at 1 (T + 1000)]
                (fresh one_second) w eq_refl eq_refl
                ltac:(vm_compute; reflexivity)) as (A & _ & C) end.
  split; [exact A | exact C].
Defined.

(** * Properties of the timer view *)

Lemma bounded_check (P : Z -> bool) (n : nat) :
  forallb P (map Z.of_nat (seq 0 n)) = true ->
  forall z, 0 <= z < Z.of_nat n -> P z = true.
Proof.
  intros H z B. rewrite forallb_forall in H. apply H.
  rewrite <- (Z2Nat.id z) by lia. apply in_map. apply in_seq. lia.
Qed.

Lemma padStart_two_digits (n : Z) :
  0 <= n < 100 ->
  TimerView.padStart 2 "0" (TimerView.js_String n) = TimerView.two_digits n.
Proof.
  intros B.
  apply String.eqb_eq.
  apply (bounded_check
           (fun z => String.eqb (TimerView.padStart 2 "0" (TimerView.js_String z))
                                (TimerView.two_digits z)) 100);
    [vm_compute; reflexivity | exact B].
Qed.

Lemma formattedTime_mm_ss_form (ms : Z) :
  0 <= ms < 6000000 ->
  TimerView.formattedTime ms
    = (TimerView.two_digits (ms / 60000) ++ ":"
       ++ TimerView.two_digits ((ms / 1000) mod 60))%string /\
  0 <= ms / 60000 < 100 /\
  0 <= (ms / 1000) mod 60 < 60.
Proof.
  intros B.
  assert (S0 : 0 <= ms / 1000) by (apply Z.div_pos; lia).
  assert (M : ms / 1000 / 60 = ms / 60000) by (rewrite Z.div_div by lia; reflexivity).
  assert (M1 : 0 <= ms / 60000 < 100).
  { split; [apply Z.div_pos; lia | apply Z.div_lt_upper_bound; lia]. }
  assert (S1 : 0 <= (ms / 1000) mod 60 < 60)
    by (apply Z.mod_pos_bound; lia).
  assert (S2 : 0 <= (ms / 1000) mod 60 < 100) by lia.
  split; [| split; assumption].
  unfold TimerView.formattedTime, js_rem. cbv zeta.
  rewrite Z.rem_mod_nonneg by lia. rewrite M.
  rewrite (padStart_two_digits _ M1), (padStart_two_digits _ S2). reflexivity.
Qed.

(** Extra X13.  For a remaining time from 0 up to, not including, 100
    minutes, [formattedTime] is five characters: the whole minutes on two
    digits, a colon, and the whole seconds within the minute on two
    digits, each padded with a zero. *)
Theorem formattedTime_is_mm_ss (ms : Z) :
  0 <= ms < 6000000 ->
  TimerView.formattedTime ms
    = (TimerView.two_digits (ms / 60000) ++ ":"
       ++ TimerView.two_digits ((ms / 1000) mod 60))%string /\
  String.length (TimerView.formattedTime ms) = 5%nat.
Proof.
  intros B. destruct (formattedTime_mm_ss_form ms B) as (E & _).
  split; [exact E |]. rewrite E. reflexivity.
Qed.

Lemma formattedTime_is_mm_ss_witness :
  TimerView.formattedTime 1799000 = "29:59"%string /\
  String.length (TimerView.formattedTime 1799000) = 5%nat.
Proof.
  destruct (formattedTime_is_mm_ss 1799000 ltac:(lia)) as (E & L).
  split; [rewrite E; vm_compute; reflexivity | exact L].
Defined.

Lemma digit_inj (a b : Z) :
  0 <= a < 10 -> 0 <= b < 10 -> TimerView.digit a = TimerView.digit b -> a = b.
Proof.
  intros A B E. unfold TimerView.digit in E.
  apply (f_equal nat_of_ascii) in E.
  rewrite !nat_ascii_embedding in E by lia. lia.
Qed.

Lemma two_digits_inj (a b : Z) :
  0 <= a < 100 -> 0 <= b < 100 ->
  TimerView.two_digits a = TimerView.two_digits b -> a = b.
Proof.
  intros A B E. unfold TimerView.two_digits in E.
  injection E as E1 E2.
  pose proof (Z.mod_pos_bound a 10 ltac:(lia)).
  pose proof (Z.mod_pos_bound b 10 ltac:(lia)).
  assert (0 <= a / 10 < 10)
    by (split; [apply Z.div_pos; lia | apply Z.div_lt_upper_bound; lia]).
  assert (0 <= b / 10 < 10)
    by (split; [apply Z.div_pos; lia | apply Z.div_lt_upper_bound; lia]).
  assert (Q : a / 10 = b / 10) by (apply digit_inj; assumption).
  assert (R : a mod 10 = b mod 10) by (apply digit_inj; assumption).
  rewrite (Z.div_mod a 10), (Z.div_mod b 10) by lia. congruence.
Qed.

(** Extra X14.  Two remaining times below 100 minutes are displayed
    alike exactly when they lie in the same whole second: the display
    determines the remaining seconds and nothing finer. *)
Theorem formattedTime_same_iff_same_second (a b : Z) :
  0 <= a < 6000000 -> 0 <= b < 6000000 ->
  (TimerView.formattedTime a = TimerView.formattedTime b <-> a / 1000 = b / 1000).
Proof.
  intros A B.
  destruct (formattedTime_mm_ss_form a A) as (Ea & Ma & Sa).
  destruct (formattedTime_mm_ss_form b B) as (Eb & Mb & Sb).
  split.
  - intros E. rewrite Ea, Eb in E.
    unfold TimerView.two_digits in E. simpl in E.
    injection E as E1 E2 E3 E4.
    assert (M : a / 60000 = b / 60000).
    { apply two_digits_inj; try assumption.
      unfold TimerView.two_digits. congruence. }
    assert (S : (a / 1000) mod 60 = (b / 1000) mod 60).
    { apply two_digits_inj; try lia.
      unfold TimerView.two_digits. congruence. }
    rewrite <- !(Z.div_div _ 1000 60) in M by lia.
    rewrite (Z.div_mod (a / 1000) 60), (Z.div_mod (b / 1000) 60) by lia.
    congruence.
  - intros E. unfold TimerView.formattedTime. rewrite E. reflexivity.
Qed.

Lemma formattedTime_same_iff_same_second_witness :
  TimerView.formattedTime 1799000 = TimerView.formattedTime 1799999 /\
  TimerView.formattedTime 1799000 <> TimerView.formattedTime 1800000.
Proof.
  split.
  - apply (formattedTime_same_iff_same_second 1799000 1799999); [lia | lia |].
    reflexivity.
  - intros E.
    apply (formattedTime_same_iff_same_second 1799000 1800000) in E; [| lia | lia].
    vm_compute in E. discriminate E.
Defined.

(** ** The buttons *)

Lemma start_wake_pause_reachable_flags :
  exists w,
    run five_seconds start_wake_pause (fresh five_seconds) = Some w /\
    reachable five_seconds w /\
    TimerView.startButtonText w = "Resume"%string.
Proof.
  eexists. split; [vm_compute; reflexivity |]. split.
  - apply (reachable_from_fresh five_seconds start_wake_pause); [reflexivity |].
    vm_compute; reflexivity.
  - reflexivity.
Qed.

(** Extra X15.  For an engine with a non-negative duration, in any state
    it can reach, both buttons of the view are disabled exactly when the
    countdown is completed; then no click reaches the engine, and in
    particular the view never calls [start()] on a completed engine. *)
Theorem both_buttons_disabled_iff_completed (o : options) (w : world) :
  reachable o w -> 0 <= durationMs o ->
  (TimerView.startButtonDisabled w = true /\ TimerView.stopButtonDisabled w = true
   <-> completed w) /\
  (completed w ->
   (forall now now_t now_s, TimerView.click_main o now now_t now_s w = None) /\
   TimerView.click_stop o w = None).
Proof.
  intros R PD.
  destruct (reachable_consistent o w R) as (_ & _ & _ & H4). specialize (H4 PD).
  unfold TimerView.click_main, TimerView.click_stop,
    TimerView.startButtonDisabled, TimerView.stopButtonDisabled, completed.
  split; [split |].
  - intros (A & B). apply Z.leb_le in A. apply andb_true_iff in B.
    destruct B as (B1 & B2). apply negb_true_iff in B1, B2.
    repeat split; try assumption. lia.
  - intros (A & B & C). rewrite A, B, C. split; reflexivity.
  - intros (A & B & C). rewrite A, B, C. split; reflexivity.
Qed.

Lemma thirty_minutes_completed :
  exists w,
    run TimerView.timer_options [start_at T; fires_at 1 (T + 1800000)]
      (fresh TimerView.timer_options) = Some w /\
    reachable TimerView.timer_options w /\
    completed w.
Proof.
  eexists. split; [vm_compute; reflexivity |]. split.
  - apply (reachable_from_fresh TimerView.timer_options
             [start_at T; fires_at 1 (T + 1800000)]); [reflexivity |].
    vm_compute; reflexivity.
  - repeat split.
Qed.

Lemma both_buttons_disabled_iff_completed_witness :
  exists w,
    run TimerView.timer_options [start_at T; fires_at 1 (T + 1800000)]
      (fresh TimerView.timer_options) = Some w /\
    TimerView.click_main TimerView.timer_options
      (T + 1900000) (T + 1900000) (T + 1900000) w = None /\
    TimerView.click_stop TimerView.timer_options w = None.
Proof.
  destruct thirty_minutes_completed as (w & E & R & C).
  exists w. split; [exact E |].
  destruct (both_buttons_disabled_iff_completed TimerView.timer_options w R
              ltac:(vm_compute; discriminate)) as (_ & K).
  destruct (K C) as (K1 & K2). split; [apply K1 | exact K2].
Defined.

(** Extra X16.  In any state the engine can reach, the label of the
    first button names what a click on it does.  Labelled Pause, the
    click pauses the running engine.  Labelled Resume, a remaining time
    is captured, it is the one displayed, and the click sets the deadline
    that far from the clock value.  Labelled Start, nothing is captured
    and the click sets the deadline a full duration away. *)
Theorem main_button_label_names_its_action (o : options) (w : world)
    (now now_t now_s : Z) :
  reachable o w ->
  (TimerView.startButtonText w = "Pause"%string ->
     isRunning w = true /\
     TimerView.startButtonAction o now now_t now_s w = pause w) /\
  (TimerView.startButtonText w = "Resume"%string ->
     pausedRemainingMs w = Some (remainingMs w) /\
     TimerView.startButtonAction o now now_t now_s w = start o now now_t now_s w /\
     deadline (TimerView.startButtonAction o now now_t now_s w)
       = Some (now + remainingMs w)) /\
  (TimerView.startButtonText w = "Start"%string ->
     pausedRemainingMs w = None /\
     TimerView.startButtonAction o now now_t now_s w = start o now now_t now_s w /\
     deadline (TimerView.startButtonAction o now now_t now_s w)
       = Some (now + durationMs o)).
Proof.
  intros R.
  destruct (reachable_consistent o w R) as (_ & H2 & _).
  pose proof (reachable_paused_has_capture o w R) as H5.
  unfold TimerView.startButtonText, TimerView.startButtonAction.
  destruct (isRunning w) eqn:Rn; [| destruct (isPaused w) eqn:Pz].
  - split; [intros _; split; reflexivity |]. split; discriminate.
  - split; [discriminate |]. split; [| discriminate]. intros _.
    specialize (H5 Pz).
    destruct (pausedRemainingMs w) as [p |] eqn:E; [| congruence].
    destruct (H2 p eq_refl) as (_ & _ & M). rewrite M.
    split; [reflexivity |]. split; [reflexivity |].
    unfold start. rewrite Rn, E. rewrite tick_keeps_deadline. reflexivity.
  - split; [discriminate |]. split; [discriminate |]. intros _.
    assert (E : pausedRemainingMs w = None).
    { destruct (pausedRemainingMs w) as [p |] eqn:E; [| reflexivity].
      destruct (H2 p eq_refl) as (X & _). congruence. }
    split; [exact E |]. split; [reflexivity |].
    unfold start. rewrite Rn, E. rewrite tick_keeps_deadline. reflexivity.
Qed.

Lemma main_button_label_names_its_action_witness :
  exists w,
    run five_seconds start_wake_pause (fresh five_seconds) = Some w /\
    TimerView.startButtonText w = "Resume"%string /\
    deadline (TimerView.startButtonAction five_seconds (T + 9000) (T + 9000) (T + 9000) w)
      = Some (T + 9000 + remainingMs w).
Proof.
  destruct start_wake_pause_reachable_flags as (w & E & R & L).
  exists w. split; [exact E |]. split; [exact L |].
  destruct (main_button_label_names_its_action five_seconds w
              (T + 9000) (T + 9000) (T + 9000) R) as (_ & K & _).
  destruct (K L) as (_ & _ & D). exact D.
Defined.

(** * Properties of the interval-driven timer view *)

Module IntervalTimerViewFacts.

Import IntervalTimerView.

Lemma filter_out_self (id : nat) :
  filter (fun i => negb (Nat.eqb i id)) [id] = [].
Proof. simpl. rewrite Nat.eqb_refl. reflexivity. Qed.

Lemma stop_clears (v : view) :
  intervals v = [] \/
  (exists id, intervals v = [id] /\ intervalId v = Some id /\ id <> 0%nat) ->
  intervals (stop v) = [] /\ next_id (stop v) = next_id v /\
  isRunning (stop v) = false /\ remainingMs (stop v) = TIMER_DURATION_MS.
Proof.
  intros [E | (id & E & I & N)]; unfold stop.
  - destruct (truthy (intervalId v)); [| simpl; auto].
    destruct (intervalId v); simpl; rewrite E; auto.
  - rewrite I. simpl. apply Nat.eqb_neq in N. rewrite N. simpl.
    rewrite E, filter_out_self. auto.
Qed.

Lemma well_formed_tracked (v : view) :
  well_formed v ->
  intervals v = [] \/
  (exists id, intervals v = [id] /\ intervalId v = Some id /\ id <> 0%nat).
Proof.
  intros (_ & _ & _ & [E | (_ & id & E & I & N & _)]); [left; exact E |].
  right. exists id. auto.
Qed.

Lemma on_interval_cases (v : view) :
  intervals v = [] \/
  (exists id, intervals v = [id] /\ intervalId v = Some id /\ id <> 0%nat) ->
  (0 < remainingMs v - 1000 /\
   on_interval v = mkView (remainingMs v - 1000) (isRunning v) (intervalId v)
                     (intervals v) (next_id v)) \/
  (remainingMs v - 1000 <= 0 /\
   remainingMs (on_interval v) = 0 /\ isRunning (on_interval v) = false /\
   intervals (on_interval v) = [] /\ next_id (on_interval v) = next_id v).
Proof.
  intros K. unfold on_interval. cbv zeta.
  set (v1 := mkView (remainingMs v - 1000) (isRunning v) (intervalId v)
               (intervals v) (next_id v)).
  change (remainingMs v1) with (remainingMs v - 1000).
  destruct (remainingMs v - 1000 <=? 0) eqn:L.
  - right. apply Z.leb_le in L. split; [exact L |].
    destruct (stop_clears v1 K) as (E & N & R & _).
    cbn [remainingMs isRunning intervals next_id]. auto.
  - left. apply Z.leb_gt in L. split; [lia | reflexivity].
Qed.

Lemma duration_facts :
  0 <= TIMER_DURATION_MS /\ TIMER_DURATION_MS mod 1000 = 0.
Proof. split; [unfold TIMER_DURATION_MS; lia | reflexivity]. Qed.

Lemma well_formed_step (e : event) (v v' : view) :
  well_formed v -> step e v = Some v' -> well_formed v'.
Proof.
  intros W St. pose proof duration_facts as (D0 & D1).
  pose proof (well_formed_tracked v W) as K.
  pose proof W as (B & M & NZ & I).
  destruct e; simpl in St.
  - destruct (isRunning v) eqn:R; [discriminate |]. injection St as <-.
    unfold start. rewrite R. unfold well_formed. simpl.
    repeat split; try assumption; try lia.
    destruct I as [E | (R' & _)]; [| congruence].
    right. split; [reflexivity |]. exists (next_id v). rewrite E.
    repeat split; try assumption; lia.
  - destruct (isRunning v) eqn:R; [| discriminate]. injection St as <-.
    destruct (stop_clears v K) as (E & N & Rs & Ms).
    unfold well_formed. rewrite E, N, Ms.
    repeat split; try assumption; try lia. left. reflexivity.
  - destruct (existsb (Nat.eqb id) (intervals v)); [| discriminate].
    injection St as <-.
    destruct (on_interval_cases v K) as [(L & ->) | (L & M0 & R0 & E0 & N0)].
    + unfold well_formed. simpl.
      assert (M' : (remainingMs v - 1000) mod 1000 = 0).
      { pose proof (Z.div_mod (remainingMs v) 1000 ltac:(lia)) as Q.
        replace (remainingMs v - 1000) with ((remainingMs v / 1000 - 1) * 1000) by lia.
        apply Z.mod_mul. lia. }
      repeat split; try assumption; try lia.
    + unfold well_formed. rewrite M0, E0, N0.
      repeat split; try assumption; try lia. left. reflexivity.
  - injection St as <-. unfold unmounted, well_formed.
    destruct I as [E | (R & i & E & Ii & N & L)].
    + destruct (truthy (intervalId v)); [| repeat split; auto; lia].
      destruct (intervalId v); simpl; rewrite ?E; repeat split; auto; lia.
    + rewrite Ii. simpl. pose proof N as N'. apply Nat.eqb_neq in N'. rewrite N'.
      simpl. rewrite E, filter_out_self.
      repeat split; try assumption; try lia. left. reflexivity.
Qed.

Lemma reachable_well_formed (v : view) : reachable v -> well_formed v.
Proof.
  induction 1 as [| v e v' _ IH St].
  - unfold well_formed, fresh. simpl. pose proof duration_facts as (D0 & D1).
    repeat split; try assumption; try lia. left. reflexivity.
  - eapply well_formed_step; eassumption.
Qed.

(** Extra X17.  Whatever is clicked and whenever the repeating timer
    fires, the time the interval-driven view displays is a whole number
    of seconds between 0 and the 30 minutes, at most one repeating timer
    is registered, it is the one the view tracks, and it is registered
    only while the view is running. *)
Theorem display_stays_in_range (v : view) :
  reachable v ->
  0 <= remainingMs v <= TIMER_DURATION_MS /\
  remainingMs v mod 1000 = 0 /\
  (length (intervals v) <= 1)%nat /\
  (forall id, In id (intervals v) -> intervalId v = Some id /\ isRunning v = true).
Proof.
  intros R. destruct (reachable_well_formed v R) as (B & M & _ & I).
  split; [exact B |]. split; [exact M |].
  destruct I as [E | (Rn & id & E & Ii & _)]; rewrite E; simpl.
  - split; [lia |]. intros id [].
  - split; [lia |]. intros i [<- | []]. split; assumption.
Qed.

Lemma reachable_after_run (evs : list event) :
  forall v v', reachable v -> run evs v = Some v' -> reachable v'.
Proof.
  induction evs as [| e evs IH]; simpl; intros v v' R E.
  - injection E as <-. exact R.
  - destruct (step e v) as [v1 |] eqn:St; [| discriminate].
    apply (IH v1 v'); [eapply reach_step; eassumption | exact E].
Qed.

Lemma display_stays_in_range_witness :
  exists v,
    run [ClickStart; IntervalFires 1; IntervalFires 1] fresh = Some v /\
    0 <= remainingMs v <= TIMER_DURATION_MS /\
    (length (intervals v) <= 1)%nat.
Proof.
  eexists. split; [vm_compute; reflexivity |].
  match goal with |- _ <= remainingMs ?v <= _ /\ _ =>
    assert (R : reachable v) end.
  { apply (reachable_after_run [ClickStart; IntervalFires 1; IntervalFires 1] fresh);
      [apply reach_fresh | vm_compute; reflexivity]. }
  destruct (display_stays_in_range _ R) as (A & _ & C & _).
  split; assumption.
Defined.

Lemma run_split (l1 l2 : list event) (v : view) :
  run (l1 ++ l2) v =
  match run l1 v with
  | Some v' => run l2 v'
  | None => None
  end.
Proof.
  revert v. induction l1 as [| e l1 IH]; simpl; intros v; [reflexivity |].
  destruct (step e v); [apply IH | reflexivity].
Qed.

Lemma ticks_count_down (id : nat) (k : nat) :
  forall r nid,
    id <> 0%nat -> 1000 * Z.of_nat k < r ->
    run (repeat (IntervalFires id) k) (mkView r true (Some id) [id] nid)
      = Some (mkView (r - 1000 * Z.of_nat k) true (Some id) [id] nid).
Proof.
  induction k as [| k IH]; intros r nid N L.
  - simpl. f_equal. f_equal. lia.
  - cbn [repeat run step intervals existsb]. rewrite Nat.eqb_refl. simpl orb.
    destruct (on_interval_cases (mkView r true (Some id) [id] nid)) as [(_ & E) | (X & _)].
    + right. exists id. auto.
    + rewrite E. cbn [remainingMs isRunning intervalId intervals next_id].
      rewrite IH by (try assumption; lia). f_equal. f_equal. lia.
    + cbn [remainingMs] in X. lia.
Qed.

Lemma ticks_from_fresh :
  (forall k : nat, (k < 1800)%nat ->
     run (ClickStart :: repeat (IntervalFires 1) k) fresh
       = Some (mkView (TIMER_DURATION_MS - 1000 * Z.of_nat k) true (Some 1%nat) [1%nat] 2)) /\
  run (ClickStart :: repeat (IntervalFires 1) 1800) fresh
    = Some (mkView 0 false None [] 2).
Proof.
  assert (A : forall k : nat, (k < 1800)%nat ->
     run (ClickStart :: repeat (IntervalFires 1) k) fresh
       = Some (mkView (TIMER_DURATION_MS - 1000 * Z.of_nat k) true (Some 1%nat) [1%nat] 2)).
  { intros k L. cbn [run step fresh isRunning start intervals next_id app remainingMs].
    apply ticks_count_down; [discriminate | unfold TIMER_DURATION_MS; lia]. }
  split; [exact A |].
  change 1800%nat with (1799 + 1)%nat. rewrite repeat_app.
  change (ClickStart :: repeat (IntervalFires 1) 1799 ++ repeat (IntervalFires 1) 1)
    with ((ClickStart :: repeat (IntervalFires 1) 1799) ++ [IntervalFires 1]).
  rewrite run_split, (A 1799%nat) by lia. reflexivity.
Qed.

Lemma countdown_reaches_zero :
  run (ClickStart :: repeat (IntervalFires 1) 1800) fresh = Some (mkView 0 false None [] 2) /\
  reachable (mkView 0 false None [] 2).
Proof.
  destruct ticks_from_fresh as (_ & E). split; [exact E |].
  apply (reachable_after_run (ClickStart :: repeat (IntervalFires 1) 1800) fresh);
    [apply reach_fresh | exact E].
Qed.

(** Extra X18.  The interval-driven view counts ticks: started from its
    initial state, after [k] firings of its repeating timer, [k] below
    1800, it displays 30 minutes less [k] seconds and is still running,
    whatever time has really passed; the 1800th firing leaves it at 0,
    not running, with the repeating timer cleared. *)
Theorem countdown_counts_ticks :
  (forall k : nat, (k < 1800)%nat ->
     exists v,
       run (ClickStart :: repeat (IntervalFires 1) k) fresh = Some v /\
       remainingMs v = TIMER_DURATION_MS - 1000 * Z.of_nat k /\
       isRunning v = true /\ intervals v = [1%nat]) /\
  (exists v,
     run (ClickStart :: repeat (IntervalFires 1) 1800) fresh = Some v /\
     remainingMs v = 0 /\ isRunning v = false /\
     intervals v = [] /\ intervalId v = None).
Proof.
  destruct ticks_from_fresh as (A & B). split.
  - intros k L. eexists. split; [apply (A k L) |]. repeat split.
  - eexists. split; [exact B |]. repeat split.
Qed.

(** Extra X19.  Once the interval-driven view has counted down to 0 it
    does not count down again: Stop is disabled, and after a click on
    Start the first firing of the repeating timer ends the run, the
    display still at 0 and the timer cleared. *)
Theorem restart_after_completion_ends_at_once (v : view) :
  reachable v -> remainingMs v = 0 -> isRunning v = false ->
  step ClickStop v = None /\
  exists v1,
    step ClickStart v = Some v1 /\
    remainingMs v1 = 0 /\ isRunning v1 = true /\
    intervals v1 = [next_id v] /\
    exists v2,
      step (IntervalFires (next_id v)) v1 = Some v2 /\
      remainingMs v2 = 0 /\ isRunning v2 = false /\ intervals v2 = [].
Proof.
  intros R M NR.
  pose proof (reachable_well_formed v R) as W.
  assert (R1 : reachable (start v)).
  { apply (reach_step v ClickStart); [exact R | simpl; now rewrite NR]. }
  pose proof (reachable_well_formed _ R1) as W1.
  destruct W as (_ & _ & NZ & [E | (X & _)]); [| congruence].
  split; [simpl; now rewrite NR |].
  exists (start v). split; [simpl; now rewrite NR |].
  assert (S1 : start v = mkView 0 true (Some (next_id v)) [next_id v] (S (next_id v))).
  { unfold start. rewrite NR, M, E. reflexivity. }
  rewrite S1. cbn [remainingMs isRunning intervals].
  repeat split.
  eexists. split.
  - cbn [step intervals existsb]. rewrite Nat.eqb_refl. reflexivity.
  - destruct (on_interval_cases
                (mkView 0 true (Some (next_id v)) [next_id v] (S (next_id v))))
      as [(X & _) | (_ & A & B & C & _)].
    + right. exists (next_id v). auto.
    + cbn [remainingMs] in X. lia.
    + auto.
Qed.

Lemma restart_after_completion_ends_at_once_witness :
  run (ClickStart :: repeat (IntervalFires 1) 1800) fresh
    = Some (mkView 0 false None [] 2) /\
  step ClickStop (mkView 0 false None [] 2) = None /\
  exists v1,
    step ClickStart (mkView 0 false None [] 2) = Some v1 /\
    remainingMs v1 = 0 /\ isRunning v1 = true /\
    intervals v1 = [2%nat] /\
    exists v2,
      step (IntervalFires 2) v1 = Some v2 /\
      remainingMs v2 = 0 /\ isRunning v2 = false /\ intervals v2 = [].
Proof.
  destruct countdown_reaches_zero as (E & R).
  split; [exact E |].
  apply (restart_after_completion_ends_at_once _ R); reflexivity.
Defined.

End IntervalTimerViewFacts.

(** * Properties of the theme store *)

Module ThemeStoreFacts.

Import ThemeStore.

Lemma loadTheme_saveTheme (b : browser) (m : ThemeMode) :
  has_window b = true -> getItem_works b = true -> setItem_works b = true ->
  loadTheme (saveTheme m b) = m.
Proof.
  intros W G S. unfold saveTheme. rewrite W, S. simpl.
  unfold loadTheme. simpl. rewrite ?W, ?G. simpl.
  destruct m; reflexivity.
Qed.

Lemma mode_string_inj (a b : ThemeMode) : mode_string a = mode_string b -> a = b.
Proof. destruct a, b; simpl; intros E; try reflexivity; discriminate E. Qed.

(** Extra X20.  [loadTheme] gives back the mode [saveTheme] stored, when
    there is a window and [localStorage] can be read and written.  It
    gives the default, [system], when there is no window, when reading
    throws, when nothing is stored and when what is stored is not the
    name of a mode; and when writing throws, [saveTheme] leaves the
    browser as it was. *)
Theorem loadTheme_reads_back_saveTheme (b : browser) :
  (forall m, has_window b = true -> getItem_works b = true -> setItem_works b = true ->
     loadTheme (saveTheme m b) = m) /\
  (has_window b = false \/ getItem_works b = false \/ item b = None \/
   (forall m, item b <> Some (mode_string m)) ->
     loadTheme b = system) /\
  (forall m, loadTheme b = m -> m <> system ->
     has_window b = true /\ getItem_works b = true /\ item b = Some (mode_string m)) /\
  (forall m, has_window b = false \/ setItem_works b = false -> saveTheme m b = b).
Proof.
  split; [intros m; apply loadTheme_saveTheme |].
  split; [| split].
  - unfold loadTheme. intros [W | [G | [I | I]]].
    + rewrite W. reflexivity.
    + rewrite G. destruct (has_window b); reflexivity.
    + rewrite I. destruct (has_window b); destruct (getItem_works b); reflexivity.
    + destruct (has_window b); [| reflexivity].
      destruct (getItem_works b); [| reflexivity]. simpl.
      destruct (item b) as [s |]; [| reflexivity].
      destruct (String.eqb_spec s "light") as [-> | _];
        [exfalso; apply (I light); reflexivity |].
      destruct (String.eqb_spec s "dark") as [-> | _];
        [exfalso; apply (I dark); reflexivity |].
      destruct (String.eqb_spec s "system") as [-> | _];
        [exfalso; apply (I system); reflexivity |].
      destruct (negb (String.eqb s "")); reflexivity.
  - intros m E N. revert E. unfold loadTheme, DEFAULT_THEME.
    destruct (has_window b); [| simpl; congruence].
    destruct (getItem_works b); [| simpl; congruence]. simpl.
    destruct (item b) as [s |]; [| unfold DEFAULT_THEME; congruence].
    destruct (String.eqb_spec s "light") as [-> | _];
      [simpl; intros <-; auto |].
    destruct (String.eqb_spec s "dark") as [-> | _];
      [simpl; intros <-; auto |].
    destruct (String.eqb_spec s "system") as [-> | _];
      [simpl; intros <-; auto |].
    destruct (negb (String.eqb s "")); simpl; unfold DEFAULT_THEME; congruence.
  - intros m [W | S]; unfold saveTheme.
    + rewrite W. reflexivity.
    + rewrite S. destruct (has_window b); reflexivity.
Qed.

Lemma flush_keeps_storage_in_step (s : store) :
  has_window (env s) = true -> getItem_works (env s) = true ->
  setItem_works (env s) = true ->
  loadTheme (env s) = watched s ->
  loadTheme (env (flush s)) = watched (flush s) /\
  theme (flush s) = theme s /\ watched (flush s) = theme s /\
  has_window (env (flush s)) = true /\ getItem_works (env (flush s)) = true /\
  setItem_works (env (flush s)) = true.
Proof.
  intros W G S I. unfold flush.
  destruct (mode_eqb (theme s) (watched s)) eqn:E.
  - assert (theme s = watched s) by (destruct (theme s), (watched s); simpl in E; congruence).
    repeat split; auto; congruence.
  - simpl. rewrite (loadTheme_saveTheme _ _ W G S).
    unfold saveTheme. rewrite W, S. simpl. repeat split; assumption.
Qed.

Lemma action_keeps_storage_in_step (a : action) (s : store) :
  has_window (env s) = true -> getItem_works (env s) = true ->
  setItem_works (env s) = true ->
  loadTheme (env s) = watched s ->
  has_window (env (apply_action a s)) = true /\
  getItem_works (env (apply_action a s)) = true /\
  setItem_works (env (apply_action a s)) = true /\
  loadTheme (env (apply_action a s)) = watched (apply_action a s).
Proof.
  intros W G S I. destruct a; simpl.
  - auto.
  - unfold toggleTheme. destruct (effectiveTheme s); simpl; auto.
  - unfold handleChange.
    destruct (has_window (env s) && has_matchMedia (env s)); simpl; auto.
  - destruct (flush_keeps_storage_in_step s W G S I) as (A & _ & _ & B & C & D).
    auto.
Qed.

Lemma actions_keep_storage_in_step (acts : list action) :
  forall s,
    has_window (env s) = true -> getItem_works (env s) = true ->
    setItem_works (env s) = true ->
    loadTheme (env s) = watched s ->
    has_window (env (apply_actions acts s)) = true /\
    getItem_works (env (apply_actions acts s)) = true /\
    setItem_works (env (apply_actions acts s)) = true /\
    loadTheme (env (apply_actions acts s)) = watched (apply_actions acts s).
Proof.
  induction acts as [| a acts IH]; intros s W G S I; [simpl; auto |].
  destruct (action_keeps_storage_in_step a s W G S I) as (W' & G' & S' & I').
  change (apply_actions (a :: acts) s) with (apply_actions acts (apply_action a s)).
  apply IH; assumption.
Qed.

(** Extra X21.  The chosen theme survives a reload.  In a browser whose
    [localStorage] can be read and written, after any sequence of
    [setTheme], [toggleTheme] and system preference changes, once the
    watcher has run, loading the store afresh from what is stored gives
    the theme the store holds. *)
Theorem theme_survives_reload (b : browser) (acts : list action) :
  has_window b = true -> getItem_works b = true -> setItem_works b = true ->
  let s := apply_actions (acts ++ [Flush]) (init b) in
  loadTheme (env s) = theme s /\
  theme (init (env s)) = theme s.
Proof.
  intros W G S s.
  assert (K : loadTheme (env s) = theme s).
  { subst s. unfold apply_actions. rewrite fold_left_app. simpl.
    fold (apply_actions acts (init b)).
    destruct (actions_keep_storage_in_step acts (init b) W G S eq_refl)
      as (W' & G' & S' & I').
    destruct (flush_keeps_storage_in_step _ W' G' S' I') as (A & B & C & _).
    congruence. }
  split; [exact K | exact K].
Qed.

Lemma theme_survives_reload_witness :
  let b := mkBrowser true true false true true None in
  let s := apply_actions ([SetTheme dark; Flush; ToggleTheme] ++ [Flush]) (init b) in
  theme s = light /\ item (env s) = Some "light"%string /\
  theme (init (env s)) = theme s.
Proof.
  intros b s. split; [reflexivity |]. split; [reflexivity |].
  apply (theme_survives_reload b [SetTheme dark; Flush; ToggleTheme]); reflexivity.
Defined.

(** Extra X22.  [toggleTheme] always leaves an explicit mode, never
    [system], and the effective theme is the opposite of what it was,
    whatever the system preference is or becomes; toggling twice gives
    back the effective theme, as an explicit mode. *)
Theorem toggleTheme_flips_effective_theme (s : store) :
  theme (toggleTheme s) <> system /\
  effectiveTheme (toggleTheme s) = opposite (effectiveTheme s) /\
  (forall matches,
     effectiveTheme (handleChange matches (toggleTheme s))
       = opposite (effectiveTheme s)) /\
  effectiveTheme (toggleTheme (toggleTheme s)) = effectiveTheme s /\
  theme (toggleTheme (toggleTheme s))
    = match effectiveTheme s with eff_light => light | eff_dark => dark end.
Proof.
  unfold toggleTheme, handleChange, effectiveTheme, setTheme.
  destruct (theme s), (systemPrefersDark s); simpl;
    (split; [discriminate |]); (split; [reflexivity |]);
    (split; [intros m; destruct (has_window (env s) && has_matchMedia (env s));
             reflexivity |]);
    split; reflexivity.
Qed.

End ThemeStoreFacts.
